(** * Aadhaar family info bot: masking utilities, session store and router

    A shallow embedding of the Telegram bot of this repository
    ([src/unnamed/part_000], the version with query tracking and [/stats];
    [src/bot.js] is the earlier version without counters and shares the
    masking utilities, the rendering and the [catch] block).

    Conventions of the embedding.
    - A JavaScript string is its sequence of UTF-16 code units, so that
      [length], indexing and [slice] count what the engine counts.  String
      literals of the source are written as UTF-8 text and converted by [js]
      (notation [lit]).
    - A JavaScript value met in a field of the upstream record is one of the
      primitives [undefined], [null], a boolean, a number or a string.  The
      numbers of the model are the integers that the engine prints in plain
      decimal notation (magnitude at most 2^53); other numbers, and arrays
      and objects nested inside a field, are outside the model, and a
      statement about values speaks of these primitives only.
    - Module-level constants read from the environment ([ACCESS_CODE],
      [API_BASE], [SHOW_SENSITIVE]) and the platform functions whose tables
      are not part of the repository ([toUpperCase], [encodeURIComponent],
      the engine's wording of a [TypeError]) are section variables.
    - A handler is a function from the store to the new store and the trace
      of effects it performed, in order.  What the outside world answers (the
      outcome of an awaited send, of [fetch], of [res.json()]) is an input.
    - Each handler invocation runs to completion before the next one.  The
      message handler writes the store in one synchronous stretch (the grant
      right after the session check, or the two increments after the last
      gateway [await]), and what it read before stays true, since sessions
      are never removed; so the store left by interleaved invocations is the
      store left by running them one after the other in the order of those
      stretches. *)

From Stdlib Require Import String Ascii ZArith NArith List Lia DecimalPos.
From stdpp Require Import gmap list.
Import ListNotations.

Local Open Scope Z_scope.

(** ** JavaScript strings *)

Module JsString.

Definition char16 := N.
Definition jsstring := list char16.

(** Code points of a UTF-8 byte sequence (well-formed input assumed: the
    literals of the source file). *)
Fixpoint utf8_points (bs : list N) : list N :=
  match bs with
  | [] => []
  | b :: r =>
    if (b <? 128)%N then b :: utf8_points r
    else if (b <? 224)%N then
      match r with
      | c1 :: r1 => ((b - 192) * 64 + (c1 - 128))%N :: utf8_points r1
      | _ => []
      end
    else if (b <? 240)%N then
      match r with
      | c1 :: c2 :: r2 =>
        ((b - 224) * 4096 + (c1 - 128) * 64 + (c2 - 128))%N :: utf8_points r2
      | _ => []
      end
    else
      match r with
      | c1 :: c2 :: c3 :: r3 =>
        ((b - 240) * 262144 + (c1 - 128) * 4096 + (c2 - 128) * 64 + (c3 - 128))%N
          :: utf8_points r3
      | _ => []
      end
  end.

(** UTF-16 encoding of one code point. *)
Definition utf16_units (cp : N) : jsstring :=
  if (cp <? 65536)%N then [cp]
  else [(55296 + (cp - 65536) / 1024)%N; (56320 + (cp - 65536) mod 1024)%N].

(** The JavaScript string denoted by a literal of the source. *)
Definition js (s : string) : jsstring :=
  flat_map utf16_units (utf8_points (map N_of_ascii (list_ascii_of_string s))).

(** The line feed written [\n] in the source. *)
Definition nl : jsstring := [10%N].

(** [s.repeat(count)].  A negative count raises a [RangeError] in the engine;
    the call sites of the source pass a length, a difference taken when it
    is positive, or a [Math.max(0, _)]. *)
Definition str_repeat (s : jsstring) (count : Z) : jsstring :=
  concat (replicate (Z.to_nat count) s).

(** [s.slice(start)] with a single integer argument. *)
Definition slice (s : jsstring) (start : Z) : jsstring :=
  let len := Z.of_nat (length s) in
  let from := if start <? 0 then Z.max (len + start) 0 else Z.min start len in
  drop (Z.to_nat from) s.

(** [parts.join(sep)]. *)
Fixpoint join (sep : jsstring) (parts : list jsstring) : jsstring :=
  match parts with
  | [] => []
  | [p] => p
  | p :: rest => p ++ sep ++ join sep rest
  end.

(** White space and line terminators, as stripped by [trim]. *)
Definition is_space (c : char16) : bool :=
  (bool_decide (c ∈ [9; 10; 11; 12; 13; 32; 160; 5760; 8232; 8233; 8239;
                     8287; 12288; 65279]%N)
   || ((8192 <=? c) && (c <=? 8202))%N)%bool.

Fixpoint trim_start (s : jsstring) : jsstring :=
  match s with
  | c :: r => if is_space c then trim_start r else s
  | [] => []
  end.

Definition trim (s : jsstring) : jsstring :=
  rev (trim_start (rev (trim_start s))).

Definition starts_with (s : jsstring) (c : char16) : bool :=
  match s with
  | c0 :: _ => bool_decide (c0 = c)
  | [] => false
  end.

Definition is_digit (c : char16) : bool := ((48 <=? c) && (c <=? 57))%N.

(** [/^\d{6,15}$/.test(s)]. *)
Definition is_family_id (s : jsstring) : bool :=
  (forallb is_digit s && (6 <=? length s)%nat && (length s <=? 15)%nat)%bool.

(** Decimal notation of an integer. *)
Fixpoint uint_units (d : Decimal.uint) : jsstring :=
  match d with
  | Decimal.Nil => []
  | Decimal.D0 r => 48%N :: uint_units r
  | Decimal.D1 r => 49%N :: uint_units r
  | Decimal.D2 r => 50%N :: uint_units r
  | Decimal.D3 r => 51%N :: uint_units r
  | Decimal.D4 r => 52%N :: uint_units r
  | Decimal.D5 r => 53%N :: uint_units r
  | Decimal.D6 r => 54%N :: uint_units r
  | Decimal.D7 r => 55%N :: uint_units r
  | Decimal.D8 r => 56%N :: uint_units r
  | Decimal.D9 r => 57%N :: uint_units r
  end.

Definition decimal (n : Z) : jsstring :=
  match Z.to_int n with
  | Decimal.Pos d => uint_units d
  | Decimal.Neg d => 45%N :: uint_units d
  end.

End JsString.
Export JsString.

(** A literal of the source, converted once, where it is written: [lit "N/A"]
    is the list of the code units of [N/A]. *)
Notation "'lit' s" := (ltac:(let v := eval vm_compute in (js s) in exact v))
  (at level 10, s at level 9, only parsing).

(** ** JavaScript values and exceptions *)

(** The primitive values a field of the parsed body can hold; [VUndefined]
    is what reading a missing property gives.  A field holding an array or
    an object is not represented, and [VNum] stands for an integer of
    magnitude at most 2^53. *)
Inductive value :=
| VUndefined
| VNull
| VBool (b : bool)
| VNum (n : Z)
| VStr (s : jsstring).

(** [!v] is [negb (truthy v)]. *)
Definition truthy (v : value) : bool :=
  match v with
  | VUndefined | VNull => false
  | VBool b => b
  | VNum n => negb (n =? 0)
  | VStr s => negb (bool_decide (s = []))
  end.

(** [String(v)] and the conversion done by a template literal; a number is
    printed in decimal notation, as the engine prints an integer of
    magnitude at most 2^53. *)
Definition ToString (v : value) : jsstring :=
  match v with
  | VUndefined => lit "undefined"
  | VNull => lit "null"
  | VBool true => lit "true"
  | VBool false => lit "false"
  | VNum n => decimal n
  | VStr s => s
  end.

(** [a || b] *)
Definition or_else (a b : value) : value := if truthy a then a else b.

(** [a ?? b] *)
Definition nullish_else (a b : value) : value :=
  match a with
  | VUndefined | VNull => b
  | _ => a
  end.

(** Where the engine raises a [TypeError] in the code of the handler. *)
Inductive type_error_site :=
| ReadOfNull (property : string)        (* [x.p] with [x] null *)
| ReadOfUndefined (property : string)   (* [x.p] with [x] undefined *)
| NotAFunction (callee : string).       (* [x.f(...)] with [x.f] not callable *)

Inductive exn :=
| Error (message : jsstring)          (* an error object carrying a message *)
| TypeError (site : type_error_site). (* raised by the engine *)

Definition result (A : Type) : Type := exn + A.

Global Instance result_ret : MRet result := λ A a, inr a.
Global Instance result_bind : MBind result :=
  λ A B f r, match r with inl e => inl e | inr a => f a end.
Global Instance result_fmap : FMap result :=
  λ A B f r, match r with inl e => inl e | inr a => inr (f a) end.

(** ** The upstream record, as [res.json()] delivers it *)

(** One entry of [memberDetailsList] that is an object. *)
Record member := {
  memberName : value;
  releationship_name : value;
  memberId : value
}.

(** An entry of the list: an object, or a primitive such as [null]. *)
Inductive element :=
| EPrim (v : value)
| EObject (m : member).

(** What the [memberDetailsList] property holds: a primitive ([VUndefined]
    when the key is missing), an array, or an object that is not an array. *)
Inductive list_field :=
| LPrim (v : value)
| LArray (l : list element)
| LObject.

Record record := {
  schemeName : value;
  homeDistName : value;
  homeStateName : value;
  address : value;
  memberDetailsList : list_field
}.

(** The parsed body: a primitive ([null], a number, ...) or an object.  A
    body that is an array has none of the properties read here and behaves
    as an object without them. *)
Inductive body :=
| BodyPrim (v : value)
| BodyObject (r : record).

Definition truthy_list (f : list_field) : bool :=
  match f with
  | LPrim v => truthy v
  | LArray _ | LObject => true
  end.

(** [m.p] for an entry [m] of the list. *)
Definition get (p : member → value) (pname : string) (m : element) : result value :=
  match m with
  | EPrim VUndefined => inl (TypeError (ReadOfUndefined pname))
  | EPrim VNull => inl (TypeError (ReadOfNull pname))
  | EPrim _ => inr VUndefined
  | EObject o => inr (p o)
  end.

(** ** The session store *)

(** [authorizedUsers[chatId] = { authorized: true, queries: 0 }] *)
Record session := {
  authorized : bool;
  queries : nat
}.

Record store := {
  authorizedUsers : gmap Z session;
  totalLookups : nat
}.

(** The store at process start. *)
Definition initial : store := {| authorizedUsers := ∅; totalLookups := 0 |}.

(** ** Effects and the outside world *)

Inductive effect :=
| SendMessage (chatId : Z) (text : jsstring) (parse_mode : option string)
| ConsoleError (label : jsstring) (err : exn)
| Fetch (url : jsstring).

(** How an awaited promise settles. *)
Inductive settled (A : Type) :=
| Fulfilled (a : A)
| Rejected (e : exn).
Arguments Fulfilled {A} a.
Arguments Rejected {A} e.

(** The response of [fetch]: its status and how [res.json()] settles. *)
Record response := {
  status : Z;
  json : settled body
}.

(** [res.ok] *)
Definition ok (res : response) : bool := (200 <=? status res) && (status res <=? 299).

(** What the outside world answers during one run of the message handler. *)
Record world := {
  fetching_sent : settled unit;   (* the awaited provisional notice *)
  fetched : settled response;     (* [await fetch(url)] *)
  reply_sent : settled unit       (* the awaited reply *)
}.

(** An inbound message: [msg.chat.id], [msg.chat.first_name], [msg.text]. *)
Record message := {
  chat_id : Z;
  first_name : option jsstring;
  text : option jsstring
}.

(** ** A small monad for handlers: store, trace of effects, exceptions *)

Definition M (A : Type) : Type := store → result A * store * list effect.

Global Instance M_ret : MRet M := λ A a st, (inr a, st, []).
Global Instance M_bind : MBind M :=
  λ A B f m st,
    let '(r, st1, t1) := m st in
    match r with
    | inl e => (inl e, st1, t1)
    | inr a => let '(r2, st2, t2) := f a st1 in (r2, st2, t1 ++ t2)
    end.

Definition throw {A} (e : exn) : M A := λ st, (inl e, st, []).
Definition perform (e : effect) : M unit := λ st, (inr (), st, [e]).
Definition read : M store := λ st, (inr st, st, []).
Definition write (st' : store) : M unit := λ _, (inr (), st', []).
Definition lift {A} (r : result A) : M A := λ st, (r, st, []).

(** [await p] for a promise that settles as [s]. *)
Definition await {A} (s : settled A) : M A :=
  match s with
  | Fulfilled a => mret a
  | Rejected e => throw e
  end.

(** [try { body } catch (err) { handler }] *)
Definition try_catch {A} (body : M A) (handler : exn → M A) : M A :=
  λ st,
    let '(r, st1, t1) := body st in
    match r with
    | inl e => let '(r2, st2, t2) := handler e st1 in (r2, st2, t1 ++ t2)
    | inr a => (inr a, st1, t1)
    end.

(** The store and the trace a handler leaves. *)
Definition run {A} (m : M A) (st : store) : store * list effect :=
  let '(_, st', t) := m st in (st', t).

(** ** The bot *)

Module Bot.

Section Handlers.

(** [process.env.ACCESS_CODE], [process.env.AADHAR_API_BASE] and the parsed
    [SHOW_SENSITIVE] flag. *)
Variable ACCESS_CODE : jsstring.
Variable API_BASE : jsstring.
Variable SHOW_SENSITIVE : bool.

(** [String.prototype.toUpperCase], [encodeURIComponent] and the message the
    engine gives a [TypeError]. *)
Variable toUpperCase : jsstring → jsstring.
Variable encodeURIComponent : jsstring → jsstring.
Variable typeErrorMessage : type_error_site → jsstring.

(** [err.message] *)
Definition message_of (err : exn) : jsstring :=
  match err with
  | Error m => m
  | TypeError site => typeErrorMessage site
  end.

(** *** Utility functions *)

(** [maskString(str, keepLast)]; the source gives [keepLast] the default 4
    and always passes it. *)
Definition maskString (str : value) (keepLast : Z) : jsstring :=
  if negb (truthy str) then lit "N/A"
  else
    let s := ToString str in
    let len := Z.of_nat (length s) in
    if len <=? keepLast then str_repeat (lit "*") len
    else str_repeat (lit "*") (len - keepLast) ++ slice s (- keepLast).

(** [maskName(name)]: [name[0]] is [undefined] for a number or a boolean,
    and reading [toUpperCase] from it throws. *)
Definition maskName (name : value) : result jsstring :=
  if negb (truthy name) then inr (lit "N/A")
  else
    match name with
    | VStr ((c :: _) as s) =>
      inr (toUpperCase [c] ++ lit "."
           ++ str_repeat (lit "*") (Z.max 0 (Z.of_nat (length s) - 1)))
    | _ => inl (TypeError (ReadOfUndefined "toUpperCase"))
    end.

(** [safeLine(label, value)] *)
Definition safeLine (label : jsstring) (v : value) : jsstring :=
  label ++ lit ": " ++ ToString (nullish_else v (VStr (lit "N/A"))).

(** *** Rendering of the record (the body of the [try] after the counters) *)

(** The callback of [memberDetailsList.map], for the entry [m] at index [i]. *)
Definition member_line (m : element) (i : nat) : result jsstring :=
  raw_name ← get memberName "memberName" m;
  name ← (if SHOW_SENSITIVE then inr raw_name else VStr <$> maskName raw_name);
  raw_relation ← get releationship_name "releationship_name" m;
  let relation := or_else raw_relation (VStr (lit "N/A")) in
  raw_id ← get memberId "memberId" m;
  let id := if SHOW_SENSITIVE then raw_id else VStr (maskString raw_id 4) in
  inr (decimal (Z.of_nat i + 1) ++ lit ". " ++ ToString name ++ lit " — "
       ++ ToString relation ++ nl ++ lit "   🆔 " ++ ToString id).

(** [l.map(callback)] from index [i] on: the first exception stops it. *)
Fixpoint map_lines (l : list element) (i : nat) : result (list jsstring) :=
  match l with
  | [] => inr []
  | m :: rest =>
    line ← member_line m i;
    lines ← map_lines rest (S i);
    inr (line :: lines)
  end.

(** [data.memberDetailsList.map(...).join("\n\n")] *)
Definition members_of (f : list_field) : result jsstring :=
  match f with
  | LArray l => join (nl ++ nl) <$> map_lines l 0
  | LPrim _ | LObject => inl (TypeError (NotAFunction "map"))
  end.

Definition warning_banner : jsstring :=
  lit "⚠️ Sensitive output is ENABLED. Handle with caution.".

Definition masked_notice : jsstring :=
  lit "🔒 Sensitive fields are masked. Set SHOW_SENSITIVE=true in .env to see full data.".

(** The message built from [data]. *)
Definition render (data : record) : result jsstring :=
  let address := if SHOW_SENSITIVE then address data
                 else VStr (maskString (address data) 6) in
  let scheme := or_else (schemeName data) (VStr (lit "N/A")) in
  let district := or_else (homeDistName data) (VStr (lit "N/A")) in
  let state := or_else (homeStateName data) (VStr (lit "N/A")) in
  members ← members_of (memberDetailsList data);
  inr (join nl [
    lit "🪪 **Aadhaar Family Info**";
    lit "────────────────────";
    safeLine (lit "Scheme") scheme;
    safeLine (lit "District") district;
    safeLine (lit "State") state;
    safeLine (lit "Address") address;
    [];
    lit "👨‍👩‍👧‍👦 **Members:**";
    members;
    [];
    if SHOW_SENSITIVE then warning_banner else masked_notice
  ]).

(** *** Bot commands *)

(** [bot.sendMessage(chatId, text, options)], not awaited. *)
Definition sendMessage (chatId : Z) (text : jsstring) (parse_mode : option string)
  : M unit :=
  perform (SendMessage chatId text parse_mode).

(** [/start] *)
Definition onStart (msg : message) : M unit :=
  sendMessage (chat_id msg)
    (lit "👋 Hello " ++ default [] (first_name msg) ++ lit "!" ++ nl ++ nl
     ++ lit "Welcome to the **Aadhaar Family Info Bot** 🔍" ++ nl ++ nl
     ++ lit "Please enter your **access code** to continue.")
    (Some "Markdown"%string).

(** [/help] *)
Definition onHelp (msg : message) : M unit :=
  sendMessage (chat_id msg)
    (lit "📘 **How to use:**" ++ nl ++ lit "1. Send your access code." ++ nl
     ++ lit "2. Once authorized, send any Aadhaar *family ID* to fetch details."
     ++ nl ++ nl ++ lit "Example: `116440054586`" ++ nl ++ nl
     ++ lit "📊 Use /stats to see your queries and bot stats.")
    (Some "Markdown"%string).

(** [Object.keys(authorizedUsers).length] *)
Definition totalUsers (st : store) : nat := size (authorizedUsers st).

Definition not_authorized_notice : jsstring :=
  lit "🚫 You must be authorized to see stats. Enter the access code first.".

Definition statsMsg (totalUsers userQueries totalLookups : nat) : jsstring :=
  nl ++ lit "📊 *Bot Stats:*" ++ nl
  ++ lit "────────────────────" ++ nl
  ++ lit "👤 Authorized Users: " ++ decimal (Z.of_nat totalUsers) ++ nl
  ++ lit "📈 Your Queries: " ++ decimal (Z.of_nat userQueries) ++ nl
  ++ lit "🌐 Total Lookups: " ++ decimal (Z.of_nat totalLookups) ++ nl.

(** [/stats] *)
Definition onStats (msg : message) : M unit :=
  let chatId := chat_id msg in
  st ← read;
  match authorizedUsers st !! chatId with
  | None => sendMessage chatId not_authorized_notice None
  | Some s =>
    if negb (authorized s) then sendMessage chatId not_authorized_notice None
    else
      let userQueries := queries s in   (* [queries || 0] *)
      sendMessage chatId (statsMsg (totalUsers st) userQueries (totalLookups st))
        (Some "Markdown"%string)
  end.

(** *** Message handler *)

Definition granted_notice : jsstring :=
  lit "✅ Access Granted! You can now send Aadhaar family IDs to fetch info.".

Definition restricted_notice : jsstring :=
  lit "🔒 Access Restricted. Please enter the correct access code.".

Definition invalid_notice : jsstring :=
  lit "⚠️ Please send a valid Aadhaar family ID (digits only). Example: `116440054586`".

Definition fetching_notice : jsstring := lit "🔍 Fetching Aadhaar family info...".

Definition not_found_notice : jsstring :=
  lit "❌ No data found for this Aadhaar family ID.".

Definition failure_notice (err : exn) : jsstring :=
  lit "❌ Failed to fetch data: " ++ message_of err.

(** [!data || !data.memberDetailsList] *)
Definition no_data (data : body) : bool :=
  match data with
  | BodyPrim _ => true
  | BodyObject r => negb (truthy_list (memberDetailsList r))
  end.

(** [authorizedUsers[chatId].queries++; totalLookups++;] *)
Definition increment_counters (chatId : Z) : M unit :=
  st ← read;
  match authorizedUsers st !! chatId with
  | None => throw (TypeError (ReadOfUndefined "queries"))
  | Some s =>
    write {| authorizedUsers :=
               <[chatId := {| authorized := authorized s; queries := S (queries s) |}]>
                 (authorizedUsers st);
             totalLookups := totalLookups st |};;
    st1 ← read;
    write {| authorizedUsers := authorizedUsers st1;
             totalLookups := S (totalLookups st1) |}
  end.

(** The body of the [try] block. *)
Definition lookup (chatId : Z) (text : jsstring) (w : world) : M unit :=
  sendMessage chatId fetching_notice None;;
  await (fetching_sent w);;
  let url := API_BASE ++ encodeURIComponent text in
  perform (Fetch url);;
  res ← await (fetched w);
  (if negb (ok res) then throw (Error (lit "HTTP " ++ decimal (status res)))
   else mret ());;
  data ← await (json res);
  match data with
  | BodyObject r =>
    if negb (truthy_list (memberDetailsList r))
    then sendMessage chatId not_found_notice None
    else
      increment_counters chatId;;
      message ← lift (render r);
      sendMessage chatId message (Some "Markdown"%string);;
      await (reply_sent w)
  | BodyPrim _ => sendMessage chatId not_found_notice None
  end.

(** The [catch] block. *)
Definition on_error (chatId : Z) (err : exn) : M unit :=
  perform (ConsoleError (lit "❌ Error:") err);;
  sendMessage chatId (failure_notice err) None.

(** [bot.on("message", ...)] *)
Definition onMessage (msg : message) (w : world) : M unit :=
  let chatId := chat_id msg in
  let text := trim (default [] (text msg)) in
  if bool_decide (text = []) || starts_with text 47%N then mret ()
  else
    st ← read;
    match authorizedUsers st !! chatId with
    | None =>
      if bool_decide (text = ACCESS_CODE) then
        write {| authorizedUsers :=
                   <[chatId := {| authorized := true; queries := 0 |}]>
                     (authorizedUsers st);
                 totalLookups := totalLookups st |};;
        sendMessage chatId granted_notice None
      else sendMessage chatId restricted_notice None
    | Some _ =>
      if negb (is_family_id text) then sendMessage chatId invalid_notice None
      else try_catch (lookup chatId text w) (on_error chatId)
    end.

(** *** Sequences of handler invocations *)

Inductive event :=
| Message (msg : message) (w : world)
| Start (msg : message)
| Help (msg : message)
| Stats (msg : message).

Definition handle (ev : event) : M unit :=
  match ev with
  | Message msg w => onMessage msg w
  | Start msg => onStart msg
  | Help msg => onHelp msg
  | Stats msg => onStats msg
  end.

Definition step (st : store) (ev : event) : store := (run (handle ev) st).1.

Definition run_events (st : store) (evs : list event) : store :=
  foldl step st evs.

End Handlers.

End Bot.

Arguments js : simpl never.
Arguments decimal : simpl never.
Arguments trim : simpl never.
Arguments is_family_id : simpl never.

(** ** The specification's vocabulary *)

Module Layout.

(** One member line, in the specification's words: its number, the displayed
    name, the relationship label and, on a second line, the displayed
    identifier. *)
Definition member_entry (k : nat) (name relation id : jsstring) : jsstring :=
  decimal (Z.of_nat k) ++ lit ". " ++ name ++ lit " — " ++ relation
  ++ nl ++ lit "   🆔 " ++ id.

(** The reply to a successful lookup: the title, the four labelled lines, the
    member lines in order, and the closing notice. *)
Definition reply (scheme district state address : jsstring)
  (entries : list jsstring) (closing : jsstring) : jsstring :=
  lit "🪪 **Aadhaar Family Info**" ++ nl
  ++ lit "────────────────────" ++ nl
  ++ lit "Scheme: " ++ scheme ++ nl
  ++ lit "District: " ++ district ++ nl
  ++ lit "State: " ++ state ++ nl
  ++ lit "Address: " ++ address ++ nl
  ++ nl
  ++ lit "👨‍👩‍👧‍👦 **Members:**" ++ nl
  ++ join (nl ++ nl) entries ++ nl
  ++ nl
  ++ closing.

(** A label such as the scheme name, with the placeholder when it is missing. *)
Definition label (v : value) : jsstring := ToString (or_else v (VStr (lit "N/A"))).

(** The redaction character and the separator of a masked name. *)
Definition redaction : char16 := 42%N.
Definition separator : char16 := 46%N.

(** [maskTail(value, keepLast)] in the specification's words: the placeholder
    for an empty value; redaction characters only when the value is not
    longer than [keepLast]; otherwise redaction characters followed by the
    final [keepLast] characters. *)
Definition maskTail (v : jsstring) (keepLast : nat) : jsstring :=
  match v with
  | [] => lit "N/A"
  | _ =>
    if (length v <=? keepLast)%nat then replicate (length v) redaction
    else replicate (length v - keepLast) redaction ++ drop (length v - keepLast) v
  end.

(** [maskName(value)] in the specification's words: the first character
    upper-cased, the separator, and one redaction character for each further
    character. *)
Definition maskName_spec (upper : jsstring → jsstring) (v : jsstring) : jsstring :=
  match v with
  | [] => lit "N/A"
  | c :: rest => upper [c] ++ separator :: replicate (length rest) redaction
  end.

(** The address as the reply displays it. *)
Definition shown_address (show : bool) (v : value) : jsstring :=
  ToString (nullish_else (if show then v else VStr (Bot.maskString v 6))
              (VStr (lit "N/A"))).

(** The closing notice: the warning banner or the masked-fields notice. *)
Definition closing (show : bool) : jsstring :=
  if show then Bot.warning_banner else Bot.masked_notice.

(** The lookup record of the specification: labels that may be missing, an
    address, and members that each have a name, a relationship label and an
    identifier. *)
Record Member := {
  member_name : jsstring;
  relation_label : value;
  member_identifier : jsstring
}.

Record LookupRecord := {
  scheme_name : value;
  district_name : value;
  state_name : value;
  full_address : jsstring;
  member_entries : list Member
}.

(** The parsed body that carries such a record. *)
Definition entry_of (p : Member) : element :=
  EObject {| memberName := VStr (member_name p);
             releationship_name := relation_label p;
             memberId := VStr (member_identifier p) |}.

Definition parsed (rec : LookupRecord) : record :=
  {| schemeName := scheme_name rec;
     homeDistName := district_name rec;
     homeStateName := state_name rec;
     address := VStr (full_address rec);
     memberDetailsList := LArray (map entry_of (member_entries rec)) |}.

(** A name and an identifier as the reply displays them. *)
Definition shown_name (show : bool) (upper : jsstring → jsstring) (n : jsstring)
  : jsstring :=
  if show then n else maskName_spec upper n.

Definition shown_id (show : bool) (i : jsstring) : jsstring :=
  if show then i else maskTail i 4.

(** The reply for a record, given how a name, an identifier and the address
    are displayed. *)
Definition reply_for (rec : LookupRecord)
  (show_name show_id show_address : jsstring → jsstring) (closing : jsstring)
  : jsstring :=
  reply (label (scheme_name rec)) (label (district_name rec))
    (label (state_name rec)) (show_address (full_address rec))
    (imap (λ k p, member_entry (S k) (show_name (member_name p))
                    (label (relation_label p))
                    (show_id (member_identifier p)))
       (member_entries rec))
    closing.

End Layout.

Module SessionStore.

(** [recordLookup(chatId)] of the specification: the session's query count and
    the global counter advance together, by one each. *)
Definition recordLookup (chatId : Z) (st : store) : store :=
  match authorizedUsers st !! chatId with
  | Some s =>
    {| authorizedUsers :=
         <[chatId := {| authorized := authorized s; queries := S (queries s) |}]>
           (authorizedUsers st);
       totalLookups := S (totalLookups st) |}
  | None => st
  end.

(** The store once [chatId] has presented the access code. *)
Definition grant (chatId : Z) (st : store) : store :=
  {| authorizedUsers :=
       <[chatId := {| authorized := true; queries := 0 |}]> (authorizedUsers st);
     totalLookups := totalLookups st |}.

(** The gateway answered with a parsed body that has a member list: the
    provisional notice went out, [fetch] resolved with a success status and
    the body parsed to data that passes the presence check. *)
Definition gateway_succeeds (w : world) : bool :=
  match fetching_sent w, fetched w with
  | Fulfilled _, Fulfilled res =>
    ok res && match json res with
              | Fulfilled data => negb (Bot.no_data data)
              | Rejected _ => false
              end
  | _, _ => false
  end.

(** [queryCount <= totalLookups] for every session. *)
Definition counts_bounded (st : store) : Prop :=
  ∀ c s, authorizedUsers st !! c = Some s → (queries s ≤ totalLookups st)%nat.

(** Every session of the store is authorized. *)
Definition all_authorized (st : store) : Prop :=
  ∀ c s, authorizedUsers st !! c = Some s → authorized s = true.

End SessionStore.

Module Trace.

(** What the [catch] block adds to the trace: the logged error and the
    notice. *)
Definition caught (typeErrorMessage : type_error_site → jsstring)
  (chatId : Z) (err : exn) : list effect :=
  [ConsoleError (lit "❌ Error:") err;
   SendMessage chatId (Bot.failure_notice typeErrorMessage err) None].

(** The trace up to and including the gateway call. *)
Definition asked (API_BASE : jsstring) (encodeURIComponent : jsstring → jsstring)
  (chatId : Z) (id : jsstring) : list effect :=
  [SendMessage chatId Bot.fetching_notice None;
   Fetch (API_BASE ++ encodeURIComponent id)].

End Trace.

(** ** Sample configuration and inputs *)

Module Sample.

(** Upper-casing on the Basic Latin block, where it agrees with
    [toUpperCase]. *)
Definition upper_basic_latin (s : jsstring) : jsstring :=
  map (λ c, if ((97 <=? c) && (c <=? 122))%N then (c - 32)%N else c) s.

(** [encodeURIComponent] leaves digits as they are. *)
Definition encode_digits (s : jsstring) : jsstring := s.

(** A wording of the engine's [TypeError] messages. *)
Definition wording (site : type_error_site) : jsstring :=
  match site with
  | ReadOfNull p =>
    lit "Cannot read properties of null (reading '" ++ js p ++ lit "')"
  | ReadOfUndefined p =>
    lit "Cannot read properties of undefined (reading '" ++ js p ++ lit "')"
  | NotAFunction f => js f ++ lit " is not a function"
  end.

Definition api : jsstring := lit "https://api.example/family?id=".

(** One authorized chat, 7, with no query so far. *)
Definition one_user : store :=
  {| authorizedUsers := {[ 7 := {| authorized := true; queries := 0 |} ]};
     totalLookups := 0 |}.

Definition says (chat : Z) (t : string) : message :=
  {| chat_id := chat; first_name := None; text := Some (js t) |}.

Definition ravi : member :=
  {| memberName := VStr (lit "ravi kumar");
     releationship_name := VStr (lit "SELF");
     memberId := VStr (lit "123456789012") |}.

Definition sita : member :=
  {| memberName := VStr (lit "sita devi");
     releationship_name := VUndefined;
     memberId := VStr (lit "210987654321") |}.

Definition family (members : list_field) : record :=
  {| schemeName := VStr (lit "PHH");
     homeDistName := VStr (lit "Pune");
     homeStateName := VUndefined;
     address := VStr (lit "12 Main Road");
     memberDetailsList := members |}.

(** The gateway answers with status [code] and a body parsed to [data]; both
    awaited sends go through. *)
Definition answers (code : Z) (data : body) : world :=
  {| fetching_sent := Fulfilled ();
     fetched := Fulfilled {| status := code; json := Fulfilled data |};
     reply_sent := Fulfilled () |}.

(** The message handler and the event loop under the access code [code],
    with the show-sensitive flag [show]. *)
Definition handler (code : string) (show : bool) : message → world → M unit :=
  Bot.onMessage (js code) api show upper_basic_latin encode_digits wording.

Definition after (code : string) (show : bool) (evs : list Bot.event) : store :=
  Bot.run_events (js code) api show upper_basic_latin encode_digits wording
    initial evs.

End Sample.

(** ** The earlier version of the bot ([src/bot.js]) *)

(** [src/bot.js] keeps [authorizedUsers[chatId] = true] and no counters; its
    notices, its validation and its rendering are those of the later
    version, and its [try] block does not touch the store. *)
Module BotJs.

(** The [try] block: a trace of effects and possibly an exception. *)
Definition T (A : Type) : Type := result A * list effect.

Global Instance T_ret : MRet T := λ A a, (inr a, []).
Global Instance T_bind : MBind T :=
  λ A B f m,
    let '(r, t1) := m in
    match r with
    | inl e => (inl e, t1)
    | inr a => let '(r2, t2) := f a in (r2, t1 ++ t2)
    end.

Definition raise {A} (e : exn) : T A := (inl e, []).
Definition tell (e : effect) : T unit := (inr (), [e]).
Definition settle {A} (s : settled A) : T A :=
  match s with
  | Fulfilled a => mret a
  | Rejected e => raise e
  end.

Definition try_catch {A} (body : T A) (handler : exn → T A) : T A :=
  let '(r, t1) := body in
  match r with
  | inl e => let '(r2, t2) := handler e in (r2, t1 ++ t2)
  | inr a => (inr a, t1)
  end.

Section Handlers.

Variable ACCESS_CODE : jsstring.
Variable API_BASE : jsstring.
Variable SHOW_SENSITIVE : bool.
Variable toUpperCase : jsstring → jsstring.
Variable encodeURIComponent : jsstring → jsstring.
Variable typeErrorMessage : type_error_site → jsstring.

(** [/start] *)
Definition onStart (msg : message) : list effect :=
  [SendMessage (chat_id msg)
     (lit "👋 Hello " ++ default [] (first_name msg) ++ lit "!" ++ nl ++ nl
      ++ lit "Welcome to the **Aadhaar Info Bot** 🔍" ++ nl ++ nl
      ++ lit "Please enter your **access code** to continue.")
     (Some "Markdown"%string)].

(** [/help] *)
Definition onHelp (msg : message) : list effect :=
  [SendMessage (chat_id msg)
     (lit "📘 **How to use:**" ++ nl ++ lit "1. Send your access code." ++ nl
      ++ lit "2. Once authorized, send any Aadhaar *family ID* to fetch details."
      ++ nl ++ nl ++ lit "Example: `116440054586`")
     (Some "Markdown"%string)].

(** The body of the [try] block. *)
Definition lookup (chatId : Z) (text : jsstring) (w : world) : T unit :=
  tell (SendMessage chatId Bot.fetching_notice None);;
  settle (fetching_sent w);;
  let url := API_BASE ++ encodeURIComponent text in
  tell (Fetch url);;
  res ← settle (fetched w);
  (if negb (ok res) then raise (Error (lit "HTTP " ++ decimal (status res)))
   else mret ());;
  data ← settle (json res);
  match data with
  | BodyObject r =>
    if negb (truthy_list (memberDetailsList r))
    then tell (SendMessage chatId Bot.not_found_notice None)
    else
      message ← (Bot.render SHOW_SENSITIVE toUpperCase r, []);
      tell (SendMessage chatId message (Some "Markdown"%string));;
      settle (reply_sent w)
  | BodyPrim _ => tell (SendMessage chatId Bot.not_found_notice None)
  end.

(** The [catch] block. *)
Definition on_error (chatId : Z) (err : exn) : T unit :=
  tell (ConsoleError (lit "Error:") err);;
  tell (SendMessage chatId (Bot.failure_notice typeErrorMessage err) None).

(** [bot.on("message", ...)]: the authorized chats before, the authorized
    chats after and the trace. *)
Definition onMessage (msg : message) (w : world) (users : gmap Z bool)
  : gmap Z bool * list effect :=
  let chatId := chat_id msg in
  let text := trim (default [] (text msg)) in
  if bool_decide (text = []) || starts_with text 47%N then (users, [])
  else if negb (default false (users !! chatId)) then
    if bool_decide (text = ACCESS_CODE)
    then (<[chatId := true]> users,
          [SendMessage chatId Bot.granted_notice None])
    else (users, [SendMessage chatId Bot.restricted_notice None])
  else if negb (is_family_id text)
    then (users, [SendMessage chatId Bot.invalid_notice None])
    else (users, (try_catch (lookup chatId text w) (on_error chatId)).2).

(** A sequence of messages, from a given set of authorized chats. *)
Definition run_messages (users : gmap Z bool) (msgs : list (message * world))
  : gmap Z bool :=
  foldl (λ u mw, (onMessage mw.1 mw.2 u).1) users msgs.

End Handlers.

(** The log label of this version on an effect of the later one. *)
Definition relabel (e : effect) : effect :=
  match e with
  | ConsoleError _ err => ConsoleError (lit "Error:") err
  | _ => e
  end.

(** The chats authorized here are the chats that have a session there. *)
Definition agree (users : gmap Z bool) (st : store) : Prop :=
  ∀ c, default false (users !! c) = bool_decide (is_Some (authorizedUsers st !! c)).

End BotJs.

(** ** Observations on stores, events and traces *)

Module Observe.

(** The chat an event comes from. *)
Definition sender (ev : Bot.event) : Z :=
  match ev with
  | Bot.Message msg _ | Bot.Start msg | Bot.Help msg | Bot.Stats msg => chat_id msg
  end.

(** The gateway calls of a trace. *)
Definition fetches (t : list effect) : list jsstring :=
  omap (λ e, match e with Fetch url => Some url | _ => None end) t.

(** The errors a trace logs. *)
Definition logged (t : list effect) : list exn :=
  omap (λ e, match e with ConsoleError _ err => Some err | _ => None end) t.

(** The sum of the query counts of all sessions. *)
Definition query_sum (st : store) : nat :=
  map_fold (λ _ s n, (queries s + n)%nat) 0%nat (authorizedUsers st).

(** An entry of the member list that the [map] callback renders without an
    exception: not [null] or [undefined], and, when names are masked, with a
    name that is falsy or a string. *)
Definition renderable (show : bool) (m : element) : bool :=
  match m with
  | EPrim VUndefined | EPrim VNull => false
  | EPrim _ => true
  | EObject o =>
    show || negb (truthy (memberName o))
    || match memberName o with VStr _ => true | _ => false end
  end.

(** The message presents the access code [code]: its trimmed text is not
    empty, is not a command and equals the code. *)
Definition presents (code : jsstring) (msg : message) : bool :=
  let t := trim (default [] (text msg)) in
  negb (bool_decide (t = [])) && negb (starts_with t 47%N)
  && bool_decide (t = code).

(** The chats that presented the access code in some message of [evs]. *)
Definition presenters (code : jsstring) (evs : list Bot.event) : gset Z :=
  ⋃ ((λ ev, match ev with
            | Bot.Message msg _ =>
              if presents code msg then {[ chat_id msg ]} else ∅
            | _ => ∅
            end) <$> evs).

(** A value that is not a number: [undefined], [null], a boolean or a
    string. *)
Definition not_number (v : value) : bool :=
  match v with
  | VNum _ => false
  | _ => true
  end.

(** An access code that some message can equal: not empty, not a command,
    and without surrounding white space. *)
Definition enterable (code : jsstring) : bool :=
  negb (bool_decide (code = [])) && negb (starts_with code 47%N)
  && bool_decide (trim code = code).

End Observe.

(** ** A configuration for examples *)

Module Demo.

Definition code : jsstring := lit "1234".

Definition handle : Bot.event → M unit :=
  Bot.handle code Sample.api false Sample.upper_basic_latin
    Sample.encode_digits Sample.wording.

Definition step : store → Bot.event → store :=
  Bot.step code Sample.api false Sample.upper_basic_latin
    Sample.encode_digits Sample.wording.

Definition run_events : store → list Bot.event → store :=
  Bot.run_events code Sample.api false Sample.upper_basic_latin
    Sample.encode_digits Sample.wording.

Definition onMessage_v1 : message → world → gmap Z bool → gmap Z bool * list effect :=
  BotJs.onMessage code Sample.api false Sample.upper_basic_latin
    Sample.encode_digits Sample.wording.

(** The gateway answers with a family of two. *)
Definition found : world :=
  Sample.answers 200
    (BodyObject (Sample.family (LArray [EObject Sample.ravi; EObject Sample.sita]))).

(** The gateway answers with a server error. *)
Definition broken : world := Sample.answers 500 (BodyPrim VNull).

(** A lookup on chat 7. *)
Definition asks : message := Sample.says 7 "116440054586".

(** A record of the specification's shape, with two members. *)
Definition family_record : Layout.LookupRecord :=
  {| Layout.scheme_name := VStr (lit "PHH");
     Layout.district_name := VStr (lit "Pune");
     Layout.state_name := VUndefined;
     Layout.full_address := lit "12 Main Road";
     Layout.member_entries :=
       [{| Layout.member_name := lit "ravi kumar";
           Layout.relation_label := VStr (lit "SELF");
           Layout.member_identifier := lit "123456789012" |};
        {| Layout.member_name := lit "sita devi";
           Layout.relation_label := VUndefined;
           Layout.member_identifier := lit "210987654321" |}] |}.

(** A wrong code, the code, a lookup, [/stats]. *)
Definition session : list Bot.event :=
  [Bot.Message (Sample.says 7 "wrong") broken;
   Bot.Message (Sample.says 7 "1234") broken;
   Bot.Message asks found;
   Bot.Stats (Sample.says 7 "/stats")].

End Demo.

(** ** Helper lemmas on strings *)

Lemma str_repeat_star (n : Z) :
  str_repeat (lit "*") n = replicate (Z.to_nat n) Layout.redaction.
Proof.
  unfold str_repeat. change (lit "*") with [Layout.redaction].
  induction (Z.to_nat n) as [|k IH]; simpl; [done | by rewrite IH].
Qed.

Lemma slice_last (s : jsstring) (k : Z) :
  0 < k → k < Z.of_nat (length s) →
  slice s (- k) = drop (length s - Z.to_nat k) s.
Proof.
  intros Hk Hlen. unfold slice.
  destruct (Z.ltb_spec (- k) 0) as [_|?]; [|lia].
  f_equal. lia.
Qed.

Lemma truthy_nonempty (s : jsstring) : s ≠ [] → truthy (VStr s) = true.
Proof. intros H. simpl. by rewrite bool_decide_eq_false_2. Qed.

Section Masking.

Variable toUpperCase : jsstring → jsstring.

Lemma maskString_short (v : jsstring) (k : Z) :
  v ≠ [] → Z.of_nat (length v) ≤ k →
  Bot.maskString (VStr v) k = replicate (length v) Layout.redaction.
Proof.
  intros Hv Hk. unfold Bot.maskString. rewrite truthy_nonempty by done. simpl.
  destruct (Z.leb_spec (Z.of_nat (length v)) k) as [_|?]; [|lia].
  by rewrite str_repeat_star, Nat2Z.id.
Qed.

Lemma maskString_long (v : jsstring) (k : Z) :
  0 < k → k < Z.of_nat (length v) →
  Bot.maskString (VStr v) k
  = replicate (length v - Z.to_nat k) Layout.redaction
    ++ drop (length v - Z.to_nat k) v.
Proof.
  intros Hk Hlen. unfold Bot.maskString.
  rewrite truthy_nonempty by (intros ->; simpl in Hlen; lia). simpl.
  destruct (Z.leb_spec (Z.of_nat (length v)) k) as [?|_]; [lia|].
  rewrite str_repeat_star, slice_last by done.
  do 2 f_equal. lia.
Qed.

(** C5, as amended.  For a non-empty string [v] and a positive [k],
    [maskString(v, k)] has the length of [v]; when [v] is longer than [k] its
    last [k] characters are those of [v] and all characters before them are
    the redaction character; otherwise it consists of redaction characters
    only. *)
Theorem maskString_keeps_tail (v : jsstring) (k : Z) :
  v ≠ [] → 0 < k →
  let out := Bot.maskString (VStr v) k in
  let hidden := (length v - Z.to_nat k)%nat in
  length out = length v
  ∧ (k < Z.of_nat (length v) →
     drop hidden out = drop hidden v
     ∧ take hidden out = replicate hidden Layout.redaction)
  ∧ (Z.of_nat (length v) ≤ k → out = replicate (length v) Layout.redaction).
Proof.
  intros Hv Hk out hidden. subst out hidden.
  destruct (Z.lt_ge_cases k (Z.of_nat (length v))) as [Hlt|Hge].
  - rewrite maskString_long by done.
    set (h := (length v - Z.to_nat k)%nat).
    assert (Hh : (h ≤ length v)%nat) by (subst h; lia).
    split_and!.
    + rewrite length_app, length_replicate, length_drop. lia.
    + intros _. split.
      * by rewrite drop_app_length' by (by rewrite length_replicate).
      * by rewrite take_app_length' by (by rewrite length_replicate).
    + lia.
  - rewrite maskString_short by done. split_and!.
    + apply length_replicate.
    + lia.
    + done.
Qed.

Lemma maskName_nonempty (c : char16) (rest : jsstring) :
  Bot.maskName toUpperCase (VStr (c :: rest))
  = inr (toUpperCase [c] ++ Layout.separator
         :: replicate (length rest) Layout.redaction).
Proof.
  unfold Bot.maskName. rewrite truthy_nonempty by done. simpl negb.
  cbv iota. rewrite str_repeat_star.
  change (lit ".") with [Layout.separator]. simpl length.
  by replace (Z.to_nat (0 `max` (Z.of_nat (S (length rest)) - 1)))
    with (length rest) by lia.
Qed.

(** C7.  For a non-empty string, [maskName] returns the upper-cased first
    character (the result of [toUpperCase] on the one-character string
    [name[0]]), then the separator, then one redaction character for each
    further character of the name.  Nothing beyond the first character is
    revealed: two names with the same first character and the same length
    have the same output. *)
Theorem maskName_reveals_first_only (c : char16) (rest : jsstring) :
  Bot.maskName toUpperCase (VStr (c :: rest))
  = inr (toUpperCase [c] ++ Layout.separator
         :: replicate (length rest) Layout.redaction)
  ∧ ∀ rest', length rest' = length rest →
      Bot.maskName toUpperCase (VStr (c :: rest'))
      = Bot.maskName toUpperCase (VStr (c :: rest)).
Proof.
  split; [apply maskName_nonempty|].
  intros rest' Hlen. by rewrite !maskName_nonempty, Hlen.
Qed.

End Masking.

(** ** Rendering *)

Lemma label_not_nullish (v : value) :
  ToString (nullish_else (or_else v (VStr (lit "N/A"))) (VStr (lit "N/A")))
  = Layout.label v.
Proof.
  unfold Layout.label, or_else.
  by destruct v as [| |[]|n|s]; simpl;
    try destruct (n =? 0); try case_bool_decide.
Qed.

Lemma maskString_refines_maskTail (v : jsstring) (k : nat) :
  (0 < k)%nat → Bot.maskString (VStr v) (Z.of_nat k) = Layout.maskTail v k.
Proof.
  intros Hk. destruct v as [|c r]; [done|].
  unfold Layout.maskTail. destruct (Nat.leb_spec (length (c :: r)) k) as [Hle|Hgt].
  - apply maskString_short; [done | lia].
  - rewrite maskString_long by lia. by rewrite Nat2Z.id.
Qed.

Lemma join_cons (sep p q : jsstring) (rest : list jsstring) :
  join sep (p :: q :: rest) = p ++ sep ++ join sep (q :: rest).
Proof. done. Qed.

Lemma join_singleton (sep p : jsstring) : join sep [p] = p.
Proof. done. Qed.

Section Rendering.

Variable SHOW_SENSITIVE : bool.
Variable toUpperCase : jsstring → jsstring.

Local Abbreviation render := (Bot.render SHOW_SENSITIVE toUpperCase).
Local Abbreviation member_line := (Bot.member_line SHOW_SENSITIVE toUpperCase).
Local Abbreviation map_lines := (Bot.map_lines SHOW_SENSITIVE toUpperCase).

Lemma maskName_refines (v : jsstring) :
  Bot.maskName toUpperCase (VStr v) = inr (Layout.maskName_spec toUpperCase v).
Proof.
  destruct v as [|c r]; [done|]. apply maskName_nonempty.
Qed.

(** The message built around the member lines. *)
Lemma render_reply (r : record) (l : list element) (lines : list jsstring) :
  memberDetailsList r = LArray l →
  map_lines l 0 = inr lines →
  render r
  = inr (Layout.reply (Layout.label (schemeName r)) (Layout.label (homeDistName r))
           (Layout.label (homeStateName r))
           (Layout.shown_address SHOW_SENSITIVE (address r))
           lines (Layout.closing SHOW_SENSITIVE)).
Proof.
  intros Hl Hlines. unfold Bot.render, Bot.members_of. rewrite Hl.
  unfold fmap, result_fmap, mbind, result_bind. rewrite Hlines.
  f_equal. unfold Layout.reply, Bot.safeLine, Layout.shown_address, Layout.closing.
  rewrite !label_not_nullish, !join_cons, join_singleton.
  change (lit "Scheme: ") with (lit "Scheme" ++ lit ": ").
  change (lit "District: ") with (lit "District" ++ lit ": ").
  change (lit "State: ") with (lit "State" ++ lit ": ").
  change (lit "Address: ") with (lit "Address" ++ lit ": ").
  by rewrite <- !app_assoc, !app_nil_l.
Qed.

Lemma member_line_entry (p : Layout.Member) (i : nat) :
  member_line (Layout.entry_of p) i
  = inr (Layout.member_entry (S i)
           (Layout.shown_name SHOW_SENSITIVE toUpperCase (Layout.member_name p))
           (Layout.label (Layout.relation_label p))
           (Layout.shown_id SHOW_SENSITIVE (Layout.member_identifier p))).
Proof.
  unfold Bot.member_line, Layout.entry_of, Layout.member_entry,
    Layout.shown_name, Layout.shown_id, get. simpl.
  unfold mbind, result_bind, fmap, result_fmap.
  rewrite maskName_refines, Nat2Z.inj_succ, <- Z.add_1_r.
  destruct SHOW_SENSITIVE; [done|].
  by rewrite (maskString_refines_maskTail _ 4) by lia.
Qed.

Lemma map_lines_entries (ps : list Layout.Member) (i : nat) :
  map_lines (map Layout.entry_of ps) i
  = inr (imap (λ k p,
           Layout.member_entry (S (i + k))
             (Layout.shown_name SHOW_SENSITIVE toUpperCase (Layout.member_name p))
             (Layout.label (Layout.relation_label p))
             (Layout.shown_id SHOW_SENSITIVE (Layout.member_identifier p))) ps).
Proof.
  revert i. induction ps as [|p ps IH]; intros i; [done|].
  simpl map. simpl Bot.map_lines. rewrite member_line_entry, IH.
  unfold mbind, result_bind. rewrite imap_cons, Nat.add_0_r. do 2 f_equal.
  apply imap_ext. intros k q _. simpl. by rewrite Nat.add_succ_r.
Qed.

(** Every line starts with the number of its entry, counted from 1. *)
Lemma member_line_numbered (m : element) (i : nat) (line : jsstring) :
  member_line m i = inr line →
  ∃ rest, line = decimal (Z.of_nat (S i)) ++ lit ". " ++ rest.
Proof.
  unfold Bot.member_line, mbind, result_bind. intros H.
  destruct (get memberName _ m) as [?|raw_name]; [done|].
  destruct (if SHOW_SENSITIVE then _ else _) as [?|name]; [done|].
  destruct (get releationship_name _ m) as [?|raw_relation]; [done|].
  destruct (get memberId _ m) as [?|raw_id]; [done|].
  injection H as <-. rewrite Nat2Z.inj_succ, <- Z.add_1_r. eauto.
Qed.

End Rendering.

(** C9.  For a record whose address, member names and member identifiers are
    strings: with the show-sensitive flag enabled the reply shows the address,
    each name and each identifier verbatim and closes with the warning
    banner [⚠️ Sensitive output is ENABLED. Handle with caution.]; with the
    flag disabled it shows the address masked by [maskTail(_, 6)], each name
    masked by [maskName] and each identifier masked by [maskTail(_, 4)], and
    closes with the masked-fields notice [🔒 Sensitive fields are masked. ...],
    which is not the warning banner. *)
Theorem show_sensitive_switch (toUpperCase : jsstring → jsstring)
  (rec : Layout.LookupRecord) :
  Bot.render true toUpperCase (Layout.parsed rec)
  = inr (Layout.reply_for rec (λ n, n) (λ i, i) (λ a, a)
           (lit "⚠️ Sensitive output is ENABLED. Handle with caution."))
  ∧ Bot.render false toUpperCase (Layout.parsed rec)
    = inr (Layout.reply_for rec (Layout.maskName_spec toUpperCase)
             (λ i, Layout.maskTail i 4) (λ a, Layout.maskTail a 6)
             (lit "🔒 Sensitive fields are masked. Set SHOW_SENSITIVE=true in .env to see full data."))
  ∧ Bot.warning_banner ≠ Bot.masked_notice.
Proof.
  pose proof (λ show, render_reply show toUpperCase (Layout.parsed rec)
    (map Layout.entry_of (Layout.member_entries rec)) _ eq_refl
    (map_lines_entries show toUpperCase _ 0)) as Hrender.
  split_and!.
  - rewrite (Hrender true).
    cbv beta iota delta [Layout.reply_for Layout.shown_address Layout.closing
      Layout.shown_name Layout.shown_id Layout.parsed address schemeName
      homeDistName homeStateName nullish_else ToString Bot.warning_banner].
    reflexivity.
  - rewrite (Hrender false).
    cbv beta iota delta [Layout.reply_for Layout.shown_address Layout.closing
      Layout.shown_name Layout.shown_id Layout.parsed address schemeName
      homeDistName homeStateName nullish_else ToString Bot.masked_notice].
    by rewrite (maskString_refines_maskTail _ 6) by lia.
  - discriminate.
Qed.

(** ** The message handler, case by case *)

Lemma family_id_is_text (id : jsstring) :
  is_family_id id = true → bool_decide (id = []) || starts_with id 47%N = false.
Proof.
  unfold is_family_id. destruct id as [|c r]; [done|].
  intros H. simpl in *. unfold is_digit in H.
  rewrite bool_decide_eq_false_2; [done|]. intros ->. done.
Qed.

(** Unfold one layer of the handler monad and compute. *)
Ltac run_M :=
  unfold mbind, M_bind, mret, M_ret, read, write, perform, throw, lift,
    Bot.sendMessage; cbn.

Section Router.

Variables ACCESS_CODE API_BASE : jsstring.
Variable SHOW_SENSITIVE : bool.
Variables toUpperCase encodeURIComponent : jsstring → jsstring.
Variable typeErrorMessage : type_error_site → jsstring.

Local Abbreviation onMessage :=
  (Bot.onMessage ACCESS_CODE API_BASE SHOW_SENSITIVE toUpperCase
     encodeURIComponent typeErrorMessage).
Local Abbreviation lookup :=
  (Bot.lookup API_BASE SHOW_SENSITIVE toUpperCase encodeURIComponent).
Local Abbreviation on_error := (Bot.on_error typeErrorMessage).
Local Abbreviation failure_notice := (Bot.failure_notice typeErrorMessage).
Local Abbreviation render := (Bot.render SHOW_SENSITIVE toUpperCase).
Local Abbreviation member_line := (Bot.member_line SHOW_SENSITIVE toUpperCase).
Local Abbreviation map_lines := (Bot.map_lines SHOW_SENSITIVE toUpperCase).

Local Abbreviation caught := (Trace.caught typeErrorMessage).
Local Abbreviation asked := (Trace.asked API_BASE encodeURIComponent).

Lemma onMessage_session st msg w s :
  authorizedUsers st !! chat_id msg = Some s →
  is_family_id (trim (default [] (text msg))) = true →
  run (onMessage msg w) st
  = run (try_catch (lookup (chat_id msg) (trim (default [] (text msg))) w)
           (on_error (chat_id msg))) st.
Proof.
  intros Hs Hid. unfold run, Bot.onMessage.
  rewrite (family_id_is_text _ Hid), Hid. run_M. rewrite Hs.
  by destruct (try_catch _ _ st) as [[? ?] ?].
Qed.

Lemma increment_counters_session st chatId s :
  authorizedUsers st !! chatId = Some s →
  Bot.increment_counters chatId st = (inr (), SessionStore.recordLookup chatId st, []).
Proof.
  intros Hs. unfold Bot.increment_counters, SessionStore.recordLookup.
  run_M. rewrite Hs. run_M. done.
Qed.


Lemma recordLookup_session st chatId s :
  authorizedUsers st !! chatId = Some s →
  authorizedUsers (SessionStore.recordLookup chatId st) !! chatId
  = Some {| authorized := authorized s; queries := S (queries s) |}
  ∧ totalLookups (SessionStore.recordLookup chatId st) = S (totalLookups st).
Proof.
  intros Hs. unfold SessionStore.recordLookup. rewrite Hs. simpl.
  by rewrite lookup_insert_eq.
Qed.

(** The store after the message handler, for a chat that has a session and
    sends an identifier. *)
Lemma onMessage_store st msg w s :
  authorizedUsers st !! chat_id msg = Some s →
  is_family_id (trim (default [] (text msg))) = true →
  (run (onMessage msg w) st).1
  = if SessionStore.gateway_succeeds w
    then SessionStore.recordLookup (chat_id msg) st else st.
Proof.
  intros Hs Hid. rewrite (onMessage_session _ _ _ _ Hs Hid).
  unfold run, try_catch, Bot.lookup, SessionStore.gateway_succeeds.
  destruct w as [sent1 got sent2]; simpl.
  destruct sent1 as [[]|e1]; [|by run_M].
  destruct got as [[code parsed]|e2]; [|by run_M].
  run_M. destruct (ok _) eqn:Hok; [|by run_M]. run_M.
  destruct parsed as [data|e3]; [|by run_M]. run_M.
  destruct data as [v|r]; [by run_M|]. run_M.
  destruct (truthy_list _); [|by run_M]. run_M.
  rewrite (increment_counters_session _ _ _ Hs).
  destruct (render r) as [e4|reply]; [by run_M|]. run_M.
  by destruct sent2 as [[]|e5]; run_M.
Qed.


(** The handler when the gateway delivers parsed data, for a chat that has a
    session and sends an identifier. *)
Lemma onMessage_parsed st msg w s res data :
  authorizedUsers st !! chat_id msg = Some s →
  is_family_id (trim (default [] (text msg))) = true →
  fetching_sent w = Fulfilled () →
  fetched w = Fulfilled res → ok res = true → json res = Fulfilled data →
  run (onMessage msg w) st
  = let chatId := chat_id msg in
    let before := asked chatId (trim (default [] (text msg))) in
    match data with
    | BodyPrim _ => (st, before ++ [SendMessage chatId Bot.not_found_notice None])
    | BodyObject r =>
      if truthy_list (memberDetailsList r) then
        (SessionStore.recordLookup chatId st,
         before ++
         match render r with
         | inl e => caught chatId e
         | inr reply =>
           SendMessage chatId reply (Some "Markdown"%string)
           :: match reply_sent w with
              | Fulfilled _ => []
              | Rejected e => caught chatId e
              end
         end)
      else (st, before ++ [SendMessage chatId Bot.not_found_notice None])
    end.
Proof.
  intros Hs Hid Hsent Hgot Hok Hjson. rewrite (onMessage_session _ _ _ _ Hs Hid).
  unfold run, try_catch, Bot.lookup.
  rewrite Hsent. run_M. rewrite Hgot. run_M. rewrite Hok. run_M.
  rewrite Hjson. run_M.
  destruct data as [v|r]; [by run_M|]. run_M.
  destruct (truthy_list _); [|by run_M]. run_M.
  rewrite (increment_counters_session _ _ _ Hs).
  destruct (render r) as [e4|reply]; [by run_M|]. run_M.
  by destruct (reply_sent w) as [[]|e5]; run_M.
Qed.


(** The handler for a chat without a session. *)
Lemma onMessage_first_contact st msg w :
  authorizedUsers st !! chat_id msg = None →
  trim (default [] (text msg)) ≠ [] →
  starts_with (trim (default [] (text msg))) 47%N = false →
  run (onMessage msg w) st
  = if bool_decide (trim (default [] (text msg)) = ACCESS_CODE)
    then (SessionStore.grant (chat_id msg) st,
          [SendMessage (chat_id msg) Bot.granted_notice None])
    else (st, [SendMessage (chat_id msg) Bot.restricted_notice None]).
Proof.
  intros Hs Hne Hcmd. unfold run, Bot.onMessage.
  rewrite Hcmd, bool_decide_eq_false_2 by done. run_M. rewrite Hs.
  by case_bool_decide; run_M.
Qed.

(** The handler ignores empty messages and commands. *)
Lemma onMessage_ignored st msg w :
  bool_decide (trim (default [] (text msg)) = [])
  || starts_with (trim (default [] (text msg))) 47%N = true →
  run (onMessage msg w) st = (st, []).
Proof. intros H. unfold run, Bot.onMessage. by rewrite H. Qed.

(** The handler for a chat with a session that sends anything but an
    identifier. *)
Lemma onMessage_invalid st msg w s :
  authorizedUsers st !! chat_id msg = Some s →
  bool_decide (trim (default [] (text msg)) = [])
  || starts_with (trim (default [] (text msg))) 47%N = false →
  is_family_id (trim (default [] (text msg))) = false →
  run (onMessage msg w) st
  = (st, [SendMessage (chat_id msg) Bot.invalid_notice None]).
Proof.
  intros Hs Htext Hid. unfold run, Bot.onMessage. rewrite Htext, Hid. run_M.
  rewrite Hs. by run_M.
Qed.

(** The four situations of the message handler. *)
Lemma onMessage_situations st msg :
  let t := trim (default [] (text msg)) in
  (bool_decide (t = []) || starts_with t 47%N = true)
  ∨ (bool_decide (t = []) || starts_with t 47%N = false
     ∧ authorizedUsers st !! chat_id msg = None)
  ∨ (bool_decide (t = []) || starts_with t 47%N = false
     ∧ (∃ s, authorizedUsers st !! chat_id msg = Some s)
     ∧ is_family_id t = false)
  ∨ ((∃ s, authorizedUsers st !! chat_id msg = Some s) ∧ is_family_id t = true).
Proof.
  intros t.
  destruct (bool_decide (t = []) || starts_with t 47%N) eqn:Hcmd; [by left|].
  destruct (authorizedUsers st !! chat_id msg) as [s|] eqn:Hs; [|by right; left].
  destruct (is_family_id t) eqn:Hid; eauto 8.
Qed.

(** *** Counters *)

(** C1, as amended.  For a lookup message on a chat that has a session, the
    session's query count and the global counter advance together, by one
    each, exactly when the gateway delivers a parsed body with a member list;
    when the provisional notice, the transport, the HTTP status or the parse
    of the body fails, or the member list is missing, the store is unchanged.
    The counters are advanced before the reply is rendered and sent. *)
Theorem counters_advance_with_gateway st msg w s :
  authorizedUsers st !! chat_id msg = Some s →
  is_family_id (trim (default [] (text msg))) = true →
  let st' := (run (onMessage msg w) st).1 in
  (SessionStore.gateway_succeeds w = true →
   authorizedUsers st' !! chat_id msg
   = Some {| authorized := authorized s; queries := S (queries s) |}
   ∧ totalLookups st' = S (totalLookups st))
  ∧ (SessionStore.gateway_succeeds w = false → st' = st).
Proof.
  intros Hs Hid st'. subst st'. rewrite (onMessage_store _ _ _ _ Hs Hid).
  split; intros ->; [|done]. by apply recordLookup_session.
Qed.

(** *** Failure notices *)

(** C2, as amended.  For a transport error, a non-success HTTP status and a
    body that does not parse, the handler logs the error object and sends one
    failure notice: the fixed text [❌ Failed to fetch data: ] followed by the
    message of the error (for a non-success status, [HTTP] and the status).
    The store is unchanged. *)
Theorem failure_notice_carries_message st msg w s :
  authorizedUsers st !! chat_id msg = Some s →
  is_family_id (trim (default [] (text msg))) = true →
  fetching_sent w = Fulfilled () →
  let chatId := chat_id msg in
  let outcome (err : exn) :=
    (st, [SendMessage chatId Bot.fetching_notice None;
          Fetch (API_BASE ++ encodeURIComponent (trim (default [] (text msg))));
          ConsoleError (lit "❌ Error:") err;
          SendMessage chatId
            (lit "❌ Failed to fetch data: " ++ Bot.message_of typeErrorMessage err)
            None]) in
  (∀ err, fetched w = Rejected err → run (onMessage msg w) st = outcome err)
  ∧ (∀ res, fetched w = Fulfilled res → ok res = false →
       run (onMessage msg w) st
       = outcome (Error (lit "HTTP " ++ decimal (status res))))
  ∧ (∀ res err, fetched w = Fulfilled res → ok res = true →
       json res = Rejected err →
       run (onMessage msg w) st = outcome err).
Proof.
  intros Hs Hid Hsent chatId outcome. subst outcome chatId.
  rewrite (onMessage_session _ _ _ _ Hs Hid).
  unfold run, try_catch, Bot.lookup. rewrite Hsent.
  split_and!.
  - intros err ->. by run_M.
  - intros res -> Hok. run_M. rewrite Hok. by run_M.
  - intros res err -> Hok Hjson. run_M. rewrite Hok. run_M. rewrite Hjson.
    by run_M.
Qed.

(** *** Successful lookups *)

(** C8.  For a chat that has a session and sends a valid identifier, when the
    gateway succeeds with a record of two members that both render: the
    session's query count and the global counter increase by exactly 1, no
    other session changes, and the reply that is sent contains exactly the two
    member lines, in the order of the input, numbered 1 and 2. *)
Theorem two_members_counted_and_rendered st msg w s res r m1 m2 line1 line2 :
  authorizedUsers st !! chat_id msg = Some s →
  is_family_id (trim (default [] (text msg))) = true →
  fetching_sent w = Fulfilled () →
  fetched w = Fulfilled res → ok res = true →
  json res = Fulfilled (BodyObject r) →
  memberDetailsList r = LArray [m1; m2] →
  member_line m1 0 = inr line1 →
  member_line m2 1 = inr line2 →
  ∃ st' reply after,
    run (onMessage msg w) st
    = (st', asked (chat_id msg) (trim (default [] (text msg)))
            ++ SendMessage (chat_id msg) reply (Some "Markdown"%string) :: after)
    ∧ authorizedUsers st' !! chat_id msg
      = Some {| authorized := authorized s; queries := queries s + 1 |}
    ∧ (∀ c, c ≠ chat_id msg → authorizedUsers st' !! c = authorizedUsers st !! c)
    ∧ totalLookups st' = (totalLookups st + 1)%nat
    ∧ reply = Layout.reply (Layout.label (schemeName r))
                (Layout.label (homeDistName r)) (Layout.label (homeStateName r))
                (Layout.shown_address SHOW_SENSITIVE (address r))
                [line1; line2] (Layout.closing SHOW_SENSITIVE)
    ∧ (∃ rest, line1 = lit "1. " ++ rest)
    ∧ (∃ rest, line2 = lit "2. " ++ rest).
Proof.
  intros Hs Hid Hsent Hgot Hok Hjson Hlist H1 H2.
  rewrite (onMessage_parsed _ _ _ _ _ _ Hs Hid Hsent Hgot Hok Hjson).
  cbv zeta. rewrite Hlist. simpl truthy_list. cbv iota.
  assert (Hlines : map_lines [m1; m2] 0 = inr [line1; line2]).
  { simpl. by rewrite H1, H2. }
  rewrite (render_reply _ _ _ _ _ Hlist Hlines).
  eexists _, _, _. split_and!; [done | | | | done | |].
  - destruct (recordLookup_session _ _ _ Hs) as [-> _]. by rewrite Nat.add_1_r.
  - intros c Hc. unfold SessionStore.recordLookup. rewrite Hs. simpl.
    by rewrite lookup_insert_ne.
  - destruct (recordLookup_session _ _ _ Hs) as [_ ->]. by rewrite Nat.add_1_r.
  - destruct (member_line_numbered _ _ _ _ _ H1) as [rest ->]. by exists rest.
  - destruct (member_line_numbered _ _ _ _ _ H2) as [rest ->]. by exists rest.
Qed.

(** The not-found notice is none of the other effects of a lookup. *)
Lemma not_found_not_asked chatId id :
  SendMessage chatId Bot.not_found_notice None ∉ asked chatId id.
Proof.
  unfold Trace.asked. rewrite !not_elem_of_cons. split_and!; [|done|].
  - discriminate.
  - apply not_elem_of_nil.
Qed.

Lemma not_found_not_caught chatId err :
  SendMessage chatId Bot.not_found_notice None ∉ caught chatId err.
Proof.
  unfold Trace.caught. rewrite !not_elem_of_cons. split_and!; [done| |].
  - by intros [=H].
  - apply not_elem_of_nil.
Qed.

Lemma not_found_after_asked chatId id t :
  SendMessage chatId Bot.not_found_notice None ∈ asked chatId id ++ t
  ↔ SendMessage chatId Bot.not_found_notice None ∈ t.
Proof.
  rewrite elem_of_app. split; [|by right].
  intros [H|H]; [|done]. by apply not_found_not_asked in H.
Qed.

(** C10, as amended.  When the parsed body holds an empty member list, the
    lookup counts as successful: both counters advance by one and the reply
    has the header fields and no member line.  The not-found notice is sent
    exactly when the body is not an object or its member-list field is falsy:
    missing, [null], [false], [0] or the empty string. *)
Theorem empty_member_list_is_success st msg w s res :
  authorizedUsers st !! chat_id msg = Some s →
  is_family_id (trim (default [] (text msg))) = true →
  fetching_sent w = Fulfilled () →
  fetched w = Fulfilled res → ok res = true →
  (∀ r, json res = Fulfilled (BodyObject r) → memberDetailsList r = LArray [] →
     ∃ st' after,
       run (onMessage msg w) st
       = (st', asked (chat_id msg) (trim (default [] (text msg)))
               ++ SendMessage (chat_id msg)
                    (Layout.reply (Layout.label (schemeName r))
                       (Layout.label (homeDistName r))
                       (Layout.label (homeStateName r))
                       (Layout.shown_address SHOW_SENSITIVE (address r))
                       [] (Layout.closing SHOW_SENSITIVE))
                    (Some "Markdown"%string) :: after)
       ∧ authorizedUsers st' !! chat_id msg
         = Some {| authorized := authorized s; queries := S (queries s) |}
       ∧ totalLookups st' = S (totalLookups st))
  ∧ (∀ data, json res = Fulfilled data →
       SendMessage (chat_id msg) Bot.not_found_notice None
         ∈ (run (onMessage msg w) st).2
       ↔ (∃ v, data = BodyPrim v)
         ∨ (∃ r v, data = BodyObject r ∧ memberDetailsList r = LPrim v
                   ∧ truthy v = false)).
Proof.
  intros Hs Hid Hsent Hgot Hok. split.
  - intros r Hjson Hlist.
    rewrite (onMessage_parsed _ _ _ _ _ _ Hs Hid Hsent Hgot Hok Hjson).
    cbv zeta. rewrite Hlist. simpl truthy_list. cbv iota.
    rewrite (render_reply _ _ _ _ [] Hlist eq_refl).
    destruct (recordLookup_session _ _ _ Hs) as [Hq Ht]. eauto.
  - intros data Hjson.
    rewrite (onMessage_parsed _ _ _ _ _ _ Hs Hid Hsent Hgot Hok Hjson).
    cbv zeta. destruct data as [v|r].
    { cbn [snd]. rewrite not_found_after_asked, list_elem_of_singleton.
      split; [|done]. intros _. left. by exists v. }
    assert (Hcounted : ∀ t,
      truthy_list (memberDetailsList r) = true →
      SendMessage (chat_id msg) Bot.not_found_notice None ∉ t →
      SendMessage (chat_id msg) Bot.not_found_notice None
        ∈ asked (chat_id msg) (trim (default [] (text msg))) ++ t
      ↔ (∃ v, BodyObject r = BodyPrim v)
        ∨ (∃ r0 v, BodyObject r = BodyObject r0 ∧ memberDetailsList r0 = LPrim v
                   ∧ truthy v = false)).
    { intros t Htruthy Hnot. rewrite not_found_after_asked. split; [done|].
      intros [[v [=]]|(r0 & v & [= <-] & Hl0 & Hv0)].
      rewrite Hl0 in Htruthy. simpl in Htruthy. congruence. }
    destruct (truthy_list (memberDetailsList r)) eqn:Htruthy; cbn [snd].
    + apply Hcounted; [done|].
      destruct (render r) as [e|reply]; [apply not_found_not_caught|].
      apply not_elem_of_cons. split; [done|].
      destruct (reply_sent w); [apply not_elem_of_nil | apply not_found_not_caught].
    + rewrite not_found_after_asked, list_elem_of_singleton.
      split; [|done]. intros _. right.
      destruct (memberDetailsList r) as [v|l|] eqn:Hlist; [|done..].
      by exists r, v.
Qed.

(** *** Sequences of events *)

Local Abbreviation step :=
  (Bot.step ACCESS_CODE API_BASE SHOW_SENSITIVE toUpperCase encodeURIComponent
     typeErrorMessage).
Local Abbreviation run_events :=
  (Bot.run_events ACCESS_CODE API_BASE SHOW_SENSITIVE toUpperCase
     encodeURIComponent typeErrorMessage).

(** A handler leaves the store as it is, creates an authorized session for a
    chat that had none, or records one lookup for a chat that has a session. *)
Lemma step_cases st ev :
  step st ev = st
  ∨ (∃ c, authorizedUsers st !! c = None ∧ step st ev = SessionStore.grant c st)
  ∨ (∃ c s, authorizedUsers st !! c = Some s
            ∧ step st ev = SessionStore.recordLookup c st).
Proof.
  unfold Bot.step. destruct ev as [msg w|msg|msg|msg]; simpl Bot.handle.
  - destruct (bool_decide (trim (default [] (text msg)) = [])
              || starts_with (trim (default [] (text msg))) 47%N) eqn:Hcmd.
    { left. by rewrite onMessage_ignored. }
    destruct (authorizedUsers st !! chat_id msg) as [s|] eqn:Hs.
    + destruct (is_family_id (trim (default [] (text msg)))) eqn:Hid.
      * rewrite (onMessage_store _ _ _ _ Hs Hid).
        destruct (SessionStore.gateway_succeeds w); eauto 6.
      * left. by rewrite (onMessage_invalid _ _ _ _ Hs Hcmd Hid).
    + apply orb_false_elim in Hcmd as [Hne Hcmd].
      apply bool_decide_eq_false in Hne.
      rewrite (onMessage_first_contact _ _ _ Hs Hne Hcmd).
      case_bool_decide; eauto.
  - by left.
  - by left.
  - left. unfold run, Bot.onStats. run_M.
    destruct (authorizedUsers st !! chat_id msg) as [s|]; [|done].
    by destruct (authorized s).
Qed.

Lemma step_keeps_authorized st ev c s :
  authorizedUsers st !! c = Some s → authorized s = true →
  ∃ s', authorizedUsers (step st ev) !! c = Some s' ∧ authorized s' = true.
Proof.
  intros Hs Hauth.
  destruct (step_cases st ev) as [->|[(c' & Hnone & ->)|(c' & s' & Hsome & ->)]].
  - eauto.
  - unfold SessionStore.grant. simpl. rewrite lookup_insert_ne; [eauto|].
    intros ->. congruence.
  - unfold SessionStore.recordLookup. rewrite Hsome. simpl.
    destruct (decide (c' = c)) as [->|Hne].
    + rewrite lookup_insert_eq. eexists. split; [done|]. simpl. congruence.
    + rewrite lookup_insert_ne by done. eauto.
Qed.

Lemma step_counts_bounded st ev :
  SessionStore.counts_bounded st → SessionStore.counts_bounded (step st ev).
Proof.
  intros Hinv.
  destruct (step_cases st ev) as [->|[(c' & Hnone & ->)|(c' & s' & Hsome & ->)]].
  - done.
  - intros c s. unfold SessionStore.grant. simpl.
    destruct (decide (c' = c)) as [->|Hne].
    + rewrite lookup_insert_eq. intros [= <-]. simpl. lia.
    + rewrite lookup_insert_ne by done. apply Hinv.
  - intros c s. unfold SessionStore.recordLookup. rewrite Hsome. simpl.
    destruct (decide (c' = c)) as [->|Hne].
    + rewrite lookup_insert_eq. intros [= <-]. simpl.
      specialize (Hinv _ _ Hsome). lia.
    + rewrite lookup_insert_ne by done. intros Hc.
      specialize (Hinv _ _ Hc). lia.
Qed.

Lemma step_all_authorized st ev :
  SessionStore.all_authorized st → SessionStore.all_authorized (step st ev).
Proof.
  intros Hinv.
  destruct (step_cases st ev) as [->|[(c' & Hnone & ->)|(c' & s' & Hsome & ->)]].
  - done.
  - intros c s. unfold SessionStore.grant. simpl.
    destruct (decide (c' = c)) as [->|Hne].
    + rewrite lookup_insert_eq. by intros [= <-].
    + rewrite lookup_insert_ne by done. apply Hinv.
  - intros c s. unfold SessionStore.recordLookup. rewrite Hsome. simpl.
    destruct (decide (c' = c)) as [->|Hne].
    + rewrite lookup_insert_eq. intros [= <-]. simpl. by apply (Hinv c).
    + rewrite lookup_insert_ne by done. apply Hinv.
Qed.

Lemma run_events_all_authorized st evs :
  SessionStore.all_authorized st → SessionStore.all_authorized (run_events st evs).
Proof.
  revert st. induction evs as [|ev evs IH]; intros st Hinv; [done|].
  simpl. by apply IH, step_all_authorized.
Qed.

(** C4.  Along any sequence of events, a session that is authorized stays
    authorized, and every session's query count is at most the global number
    of lookups: the bound holds at process start and is kept by every
    event. *)
Theorem authorized_monotone_and_counts_bounded st evs :
  SessionStore.counts_bounded st →
  (∀ c s, authorizedUsers st !! c = Some s → authorized s = true →
     ∃ s', authorizedUsers (run_events st evs) !! c = Some s'
           ∧ authorized s' = true)
  ∧ SessionStore.counts_bounded (run_events st evs).
Proof.
  revert st. induction evs as [|ev evs IH]; intros st Hinv.
  - split; [eauto | done].
  - destruct (IH (step st ev) (step_counts_bounded _ _ Hinv)) as [Hmono Hbound].
    split; [|done].
    intros c s Hs Hauth.
    destruct (step_keeps_authorized st ev c s Hs Hauth) as (s1 & Hs1 & Hauth1).
    by apply (Hmono c s1).
Qed.

(** *** Authorization *)

Lemma step_sessions st ev :
  dom (authorizedUsers (step st ev))
  = dom (authorizedUsers st) ∪ Observe.presenters ACCESS_CODE [ev].
Proof.
  unfold Observe.presenters. rewrite fmap_cons, fmap_nil, union_list_cons,
    union_list_nil, (right_id_L ∅ (∪)).
  unfold Bot.step. destruct ev as [msg w|msg|msg|msg]; cbn [Bot.handle].
  - unfold Observe.presents.
    destruct (onMessage_situations st msg)
      as [Hcmd|[[Hcmd Hs]|[(Hcmd & [s Hs] & Hid)|[[s Hs] Hid]]]].
    + rewrite (onMessage_ignored _ _ _ Hcmd). cbn [fst].
      rewrite <- negb_orb, Hcmd. cbn [negb andb]. set_solver.
    + rewrite <- negb_orb, Hcmd. cbn [negb andb].
      apply orb_false_elim in Hcmd as [Hne Hcmd].
      apply bool_decide_eq_false in Hne.
      rewrite (onMessage_first_contact _ _ _ Hs Hne Hcmd).
      case_bool_decide; cbn [fst]; [|set_solver].
      unfold SessionStore.grant. cbn [authorizedUsers].
      rewrite dom_insert_L. set_solver.
    + rewrite (onMessage_invalid _ _ _ _ Hs Hcmd Hid). cbn [fst].
      assert (chat_id msg ∈ dom (authorizedUsers st)) by (apply elem_of_dom; eauto).
      destruct (_ && _); set_solver.
    + rewrite (onMessage_store _ _ _ _ Hs Hid).
      assert (chat_id msg ∈ dom (authorizedUsers st)) by (apply elem_of_dom; eauto).
      assert (Hsame : dom (authorizedUsers
                (if SessionStore.gateway_succeeds w
                 then SessionStore.recordLookup (chat_id msg) st else st))
              = dom (authorizedUsers st)).
      { destruct (SessionStore.gateway_succeeds w); [|done].
        unfold SessionStore.recordLookup. rewrite Hs. cbn [authorizedUsers].
        rewrite dom_insert_L. set_solver. }
      rewrite Hsame. destruct (_ && _); set_solver.
  - cbn. set_solver.
  - cbn. set_solver.
  - assert (Hstats : (run (Bot.onStats msg) st).1 = st).
    { unfold run, Bot.onStats. run_M.
      destruct (authorizedUsers st !! chat_id msg) as [s|]; [|done].
      by destruct (authorized s). }
    rewrite Hstats. set_solver.
Qed.

Lemma run_events_sessions st evs :
  dom (authorizedUsers (run_events st evs))
  = dom (authorizedUsers st) ∪ Observe.presenters ACCESS_CODE evs.
Proof.
  revert st. induction evs as [|ev evs IH]; intros st.
  - unfold Observe.presenters. rewrite fmap_nil, union_list_nil. set_solver.
  - cbn [Bot.run_events foldl]. fold (run_events (step st ev) evs).
    rewrite IH, step_sessions. unfold Observe.presenters.
    rewrite !fmap_cons, !union_list_cons, fmap_nil, union_list_nil. set_solver.
Qed.

(** C3, as amended.  For a chat with no session, a message that is not the
    access code (an empty message and a command included) leaves the store as
    it is: no session is created.  The access code creates the session,
    authorized and with no query.  Hence, from process start on, every
    session of the store is authorized, the chats that have a session are
    exactly the chats that presented the access code in some message, and
    the [totalUsers] figure of [/stats], the number of sessions, is the
    number of those chats. *)
Theorem session_created_on_grant_only st msg w :
  authorizedUsers st !! chat_id msg = None →
  ((run (onMessage msg w) st).1
   = if Observe.presents ACCESS_CODE msg
     then {| authorizedUsers :=
               <[chat_id msg := {| authorized := true; queries := 0 |}]>
                 (authorizedUsers st);
             totalLookups := totalLookups st |}
     else st)
  ∧ (trim (default [] (text msg)) ≠ [] →
     starts_with (trim (default [] (text msg))) 47%N = false →
     trim (default [] (text msg)) ≠ ACCESS_CODE →
     run (onMessage msg w) st
     = (st, [SendMessage (chat_id msg) Bot.restricted_notice None]))
  ∧ (trim (default [] (text msg)) ≠ [] →
     starts_with (trim (default [] (text msg))) 47%N = false →
     trim (default [] (text msg)) = ACCESS_CODE →
     run (onMessage msg w) st
     = ({| authorizedUsers :=
             <[chat_id msg := {| authorized := true; queries := 0 |}]>
               (authorizedUsers st);
           totalLookups := totalLookups st |},
        [SendMessage (chat_id msg) Bot.granted_notice None]))
  ∧ (∀ evs,
       SessionStore.all_authorized (run_events initial evs)
       ∧ dom (authorizedUsers (run_events initial evs))
         = Observe.presenters ACCESS_CODE evs
       ∧ Bot.totalUsers (run_events initial evs)
         = size (Observe.presenters ACCESS_CODE evs))
  ∧ (∀ asker s, authorizedUsers st !! chat_id asker = Some s →
       authorized s = true →
       run (Bot.onStats asker) st
       = (st, [SendMessage (chat_id asker)
                 (Bot.statsMsg (size (authorizedUsers st)) (queries s)
                    (totalLookups st))
                 (Some "Markdown"%string)])).
Proof.
  intros Hs. split_and!.
  - unfold Observe.presents.
    destruct (bool_decide (trim (default [] (text msg)) = [])
              || starts_with (trim (default [] (text msg))) 47%N) eqn:Hcmd.
    + rewrite (onMessage_ignored _ _ _ Hcmd), <- negb_orb, Hcmd. done.
    + rewrite <- negb_orb, Hcmd. cbn [negb andb].
      apply orb_false_elim in Hcmd as [Hne Hcmd].
      apply bool_decide_eq_false in Hne.
      rewrite (onMessage_first_contact _ _ _ Hs Hne Hcmd).
      by case_bool_decide.
  - intros Hne Hcmd Hcode.
    rewrite (onMessage_first_contact _ _ _ Hs Hne Hcmd).
    by rewrite bool_decide_eq_false_2.
  - intros Hne Hcmd Hcode.
    rewrite (onMessage_first_contact _ _ _ Hs Hne Hcmd).
    by rewrite bool_decide_eq_true_2.
  - intros evs.
    assert (Hdom : dom (authorizedUsers (run_events initial evs))
                   = Observe.presenters ACCESS_CODE evs).
    { rewrite run_events_sessions. cbn [initial authorizedUsers].
      rewrite dom_empty_L. set_solver. }
    split_and!; [by apply run_events_all_authorized | exact Hdom |].
    unfold Bot.totalUsers. by rewrite <- Hdom, size_dom.
  - intros asker s' Hs' Hauth. unfold run, Bot.onStats. run_M.
    rewrite Hs', Hauth. by run_M.
Qed.

(** C6, as amended.  For a chat that has a session the handler never looks at
    the access code: its outcome is the same under any access code.  Sending
    the access code again is handled as a lookup request; when the code is
    not a string of 6 to 15 digits, the store is unchanged and the reply is
    the validation notice (nothing at all when the code starts with [/]). *)
Theorem access_code_resent st msg w s :
  authorizedUsers st !! chat_id msg = Some s →
  (∀ other_code,
     run (Bot.onMessage other_code API_BASE SHOW_SENSITIVE toUpperCase
            encodeURIComponent typeErrorMessage msg w) st
     = run (onMessage msg w) st)
  ∧ (trim (default [] (text msg)) = ACCESS_CODE →
     is_family_id ACCESS_CODE = false →
     run (onMessage msg w) st
     = (st, if bool_decide (ACCESS_CODE = []) || starts_with ACCESS_CODE 47%N
            then [] else [SendMessage (chat_id msg) Bot.invalid_notice None])).
Proof.
  intros Hs. split.
  - intros other_code. unfold run, Bot.onMessage.
    destruct (_ || _); [done|]. run_M. by rewrite Hs.
  - intros Htext Hid.
    destruct (bool_decide (ACCESS_CODE = []) || starts_with ACCESS_CODE 47%N)
      eqn:Hcmd.
    + apply onMessage_ignored. by rewrite Htext.
    + apply (onMessage_invalid _ _ _ s); by rewrite ?Htext.
Qed.

(** *** Further properties of the handlers *)

(** Case analysis on what the outside world answers during a lookup, for a
    chat with the session [Hs] that sends the identifier [Hid]; [tac] closes
    each case. *)
Ltac lookup_cases Hs Hid w tac :=
  rewrite (onMessage_session _ _ _ _ Hs Hid);
  unfold run, try_catch, Bot.lookup;
  destruct w as [sent1 got sent2]; cbn [fetching_sent fetched reply_sent];
  destruct sent1 as [[]|e1]; [|run_M; tac];
  destruct got as [[code parsed]|e2]; [|run_M; tac];
  run_M; destruct (ok _) eqn:Hok; [|run_M; tac]; run_M;
  destruct parsed as [data|e3]; [|run_M; tac]; run_M;
  destruct data as [v|r]; [run_M; tac|]; run_M;
  destruct (truthy_list _); [|run_M; tac]; run_M;
  rewrite (increment_counters_session _ _ _ Hs);
  destruct (render r) as [e4|reply]; [run_M; tac|]; run_M;
  destruct sent2 as [[]|e5]; run_M; tac.

(** Membership in an explicit trace. *)
Ltac in_trace H :=
  cbn [snd] in H;
  repeat (apply elem_of_cons in H as [H|H]);
  try (by apply elem_of_nil in H); try (by injection H); try discriminate H.

(** X1.  Whatever a handler sends, it sends to the chat the event came from. *)
Theorem replies_go_to_the_sender st ev c t pm :
  SendMessage c t pm
    ∈ (run (Bot.handle ACCESS_CODE API_BASE SHOW_SENSITIVE toUpperCase
              encodeURIComponent typeErrorMessage ev) st).2 →
  c = Observe.sender ev.
Proof.
  destruct ev as [msg w|msg|msg|msg]; cbn [Bot.handle Observe.sender].
  - destruct (onMessage_situations st msg)
      as [Hcmd|[[Hcmd Hs]|[(Hcmd & [s Hs] & Hid)|[[s Hs] Hid]]]].
    + rewrite (onMessage_ignored _ _ _ Hcmd). intros H. in_trace H.
    + apply orb_false_elim in Hcmd as [Hne Hcmd].
      apply bool_decide_eq_false in Hne.
      rewrite (onMessage_first_contact _ _ _ Hs Hne Hcmd).
      case_bool_decide; intros Hin; in_trace Hin.
    + rewrite (onMessage_invalid _ _ _ _ Hs Hcmd Hid). intros H. in_trace H.
    + lookup_cases Hs Hid w ltac:(intros Hin; in_trace Hin).
  - intros H. in_trace H.
  - intros H. in_trace H.
  - unfold run, Bot.onStats. run_M.
    destruct (authorizedUsers st !! chat_id msg) as [s|];
      [destruct (authorized s)|]; run_M; intros H; in_trace H.
Qed.

Lemma ignored_is_no_family_id (t : jsstring) :
  bool_decide (t = []) || starts_with t 47%N = true → is_family_id t = false.
Proof.
  intros Hcmd. destruct (is_family_id t) eqn:Hid; [|done].
  rewrite (family_id_is_text _ Hid) in Hcmd. discriminate Hcmd.
Qed.

(** X2.  The gateway is called at most once per message, and exactly when
    the chat has a session, the trimmed text is an identifier of 6 to 15
    digits and the provisional notice went out; the URL is the base followed
    by the encoded identifier. *)
Theorem gateway_called_for_valid_requests_only st msg w :
  Observe.fetches (run (onMessage msg w) st).2
  = if bool_decide (is_Some (authorizedUsers st !! chat_id msg))
       && is_family_id (trim (default [] (text msg)))
       && match fetching_sent w with Fulfilled _ => true | Rejected _ => false end
    then [API_BASE ++ encodeURIComponent (trim (default [] (text msg)))]
    else [].
Proof.
  destruct (onMessage_situations st msg)
    as [Hcmd|[[Hcmd Hs]|[(Hcmd & [s Hs] & Hid)|[[s Hs] Hid]]]].
  - rewrite (onMessage_ignored _ _ _ Hcmd), (ignored_is_no_family_id _ Hcmd).
    by rewrite andb_false_r.
  - apply orb_false_elim in Hcmd as [Hne Hcmd].
    apply bool_decide_eq_false in Hne.
    rewrite (onMessage_first_contact _ _ _ Hs Hne Hcmd), Hs.
    rewrite (bool_decide_eq_false_2 (is_Some None)) by apply is_Some_None.
    by case_bool_decide.
  - rewrite (onMessage_invalid _ _ _ _ Hs Hcmd Hid), Hid.
    by rewrite andb_false_r.
  - rewrite Hs, Hid, bool_decide_eq_true_2 by done.
    lookup_cases Hs Hid w ltac:(reflexivity).
Qed.

Lemma step_cases_sender st ev :
  step st ev = st
  ∨ (authorizedUsers st !! Observe.sender ev = None
     ∧ step st ev = SessionStore.grant (Observe.sender ev) st)
  ∨ (∃ s, authorizedUsers st !! Observe.sender ev = Some s
          ∧ step st ev = SessionStore.recordLookup (Observe.sender ev) st).
Proof.
  unfold Bot.step.
  destruct ev as [msg w|msg|msg|msg]; cbn [Bot.handle Observe.sender].
  - destruct (onMessage_situations st msg)
      as [Hcmd|[[Hcmd Hs]|[(Hcmd & [s Hs] & Hid)|[[s Hs] Hid]]]].
    + left. by rewrite onMessage_ignored.
    + apply orb_false_elim in Hcmd as [Hne Hcmd].
      apply bool_decide_eq_false in Hne.
      rewrite (onMessage_first_contact _ _ _ Hs Hne Hcmd).
      case_bool_decide; eauto.
    + left. by rewrite (onMessage_invalid _ _ _ _ Hs Hcmd Hid).
    + rewrite (onMessage_store _ _ _ _ Hs Hid).
      destruct (SessionStore.gateway_succeeds w); eauto 6.
  - by left.
  - by left.
  - left. unfold run, Bot.onStats. run_M.
    destruct (authorizedUsers st !! chat_id msg) as [s|]; [|done].
    by destruct (authorized s).
Qed.

(** X3.  An event changes no session but the sender's. *)
Theorem other_chats_untouched st ev c :
  c ≠ Observe.sender ev →
  authorizedUsers (step st ev) !! c = authorizedUsers st !! c.
Proof.
  intros Hc.
  destruct (step_cases_sender st ev) as [->|[[Hnone ->]|(s & Hsome & ->)]].
  - done.
  - unfold SessionStore.grant. simpl. by rewrite lookup_insert_ne.
  - unfold SessionStore.recordLookup. rewrite Hsome. simpl.
    by rewrite lookup_insert_ne.
Qed.

Lemma step_never_decreases st ev :
  (totalLookups st ≤ totalLookups (step st ev))%nat
  ∧ (Bot.totalUsers st ≤ Bot.totalUsers (step st ev))%nat
  ∧ ∀ c s, authorizedUsers st !! c = Some s →
      ∃ s', authorizedUsers (step st ev) !! c = Some s'
            ∧ authorized s' = authorized s ∧ (queries s ≤ queries s')%nat.
Proof.
  unfold Bot.totalUsers.
  destruct (step_cases_sender st ev) as [->|[[Hnone ->]|(s0 & Hsome & ->)]].
  - split_and!; [lia..|]. eauto.
  - unfold SessionStore.grant. simpl. split_and!; [lia| |].
    + rewrite map_size_insert_None by done. lia.
    + intros c s Hs. exists s. split_and!; [|done|lia].
      rewrite lookup_insert_ne; [done|]. intros <-. congruence.
  - unfold SessionStore.recordLookup. rewrite Hsome. simpl. split_and!; [lia| |].
    + rewrite map_size_insert_Some by done. lia.
    + intros c s Hs. destruct (decide (Observe.sender ev = c)) as [<-|Hne].
      * rewrite lookup_insert_eq. eexists. split; [done|]. simpl.
        assert (s = s0) as -> by congruence. split; [done|lia].
      * rewrite lookup_insert_ne by done. exists s. split_and!; [done..|lia].
Qed.

(** X4.  Along any sequence of events the global counter never decreases, no
    session is removed (so the number of users never decreases), no
    session's flag changes and no session's query count decreases. *)
Theorem counters_never_decrease st evs :
  (totalLookups st ≤ totalLookups (run_events st evs))%nat
  ∧ (Bot.totalUsers st ≤ Bot.totalUsers (run_events st evs))%nat
  ∧ ∀ c s, authorizedUsers st !! c = Some s →
      ∃ s', authorizedUsers (run_events st evs) !! c = Some s'
            ∧ authorized s' = authorized s ∧ (queries s ≤ queries s')%nat.
Proof.
  revert st. induction evs as [|ev evs IH]; intros st.
  - split_and!; [done..|]. intros c s Hs. exists s. split_and!; [done..|lia].
  - destruct (step_never_decreases st ev) as (Ht & Hu & Hq).
    destruct (IH (step st ev)) as (Ht' & Hu' & Hq'). cbn [Bot.run_events foldl].
    fold (run_events (step st ev) evs).
    split_and!; [lia..|].
    intros c s Hs. destruct (Hq c s Hs) as (s1 & Hs1 & Ha1 & Hq1).
    destruct (Hq' c s1 Hs1) as (s2 & Hs2 & Ha2 & Hq2).
    exists s2. split_and!; [done|congruence|lia].
Qed.

Lemma query_sum_insert (m : gmap Z session) (tot : nat) c s :
  m !! c = None →
  Observe.query_sum {| authorizedUsers := <[c := s]> m; totalLookups := tot |}
  = (queries s + Observe.query_sum {| authorizedUsers := m; totalLookups := tot |})%nat.
Proof.
  intros Hc. unfold Observe.query_sum. cbn [authorizedUsers].
  apply (map_fold_insert_L (λ _ s n, (queries s + n)%nat)); [|done].
  intros. lia.
Qed.

Lemma query_sum_update (m : gmap Z session) (tot tot' : nat) c s s' :
  m !! c = Some s →
  (Observe.query_sum {| authorizedUsers := <[c := s']> m; totalLookups := tot' |}
   + queries s
   = Observe.query_sum {| authorizedUsers := m; totalLookups := tot |} + queries s')%nat.
Proof.
  intros Hc. unfold Observe.query_sum. cbn [authorizedUsers].
  rewrite <- (insert_delete_eq m c s').
  rewrite (map_fold_insert_L (λ _ s n, (queries s + n)%nat));
    [|intros; lia|apply lookup_delete_eq].
  rewrite (map_fold_delete_L (λ _ s n, (queries s + n)%nat) _ c s m);
    [lia|intros; lia|done].
Qed.

Lemma step_keeps_query_sum st ev :
  Observe.query_sum st = totalLookups st →
  Observe.query_sum (step st ev) = totalLookups (step st ev).
Proof.
  intros Hinv. destruct st as [m tot].
  destruct (step_cases_sender {| authorizedUsers := m; totalLookups := tot |} ev)
    as [->|[[Hnone ->]|(s & Hsome & ->)]].
  - done.
  - unfold SessionStore.grant. cbn [authorizedUsers totalLookups] in *.
    rewrite query_sum_insert by done. simpl. exact Hinv.
  - unfold SessionStore.recordLookup. rewrite Hsome.
    cbn [authorizedUsers totalLookups] in *.
    pose proof (query_sum_update m tot (S tot) (Observe.sender ev) s
                  {| authorized := authorized s; queries := S (queries s) |}
                  Hsome) as Hsum.
    simpl in Hsum. lia.
Qed.

(** X5.  The global number of lookups is the sum of the query counts of all
    sessions: the equation holds at process start and every event keeps
    it. *)
Theorem lookups_are_the_sum_of_queries st evs :
  Observe.query_sum st = totalLookups st →
  Observe.query_sum (run_events st evs) = totalLookups (run_events st evs).
Proof.
  revert st. induction evs as [|ev evs IH]; intros st Hinv; [done|].
  apply (IH (step st ev)). by apply step_keeps_query_sum.
Qed.

(** *** White space, commands and the access code *)

Lemma trim_start_split (s : jsstring) :
  ∃ spaces, s = spaces ++ trim_start s ∧ forallb is_space spaces = true.
Proof.
  induction s as [|c r (spaces & Hr & Hspaces)]; [by exists []|].
  simpl. destruct (is_space c) eqn:Hc.
  - exists (c :: spaces). simpl. rewrite Hc, Hspaces. by rewrite <- Hr.
  - by exists [].
Qed.

Lemma trim_start_head (s : jsstring) c r :
  trim_start s = c :: r → is_space c = false.
Proof.
  induction s as [|c0 r0 IH]; [done|]. simpl.
  destruct (is_space c0) eqn:Hc0; [done|]. by intros [= <- <-].
Qed.

Lemma trim_start_fixed (s : jsstring) :
  (∀ c r, s = c :: r → is_space c = false) → trim_start s = s.
Proof.
  destruct s as [|c r]; [done|]. intros H. simpl. by rewrite (H c r).
Qed.

Lemma trim_start_spaces (s : jsstring) :
  forallb is_space s = true → trim_start s = [].
Proof.
  induction s as [|c r IH]; [done|]. simpl.
  intros [Hc Hr]%andb_prop. rewrite Hc. by apply IH.
Qed.

Lemma trim_spaces (s : jsstring) : forallb is_space s = true → trim s = [].
Proof. intros H. unfold trim. by rewrite (trim_start_spaces _ H). Qed.

Lemma trim_idempotent (s : jsstring) : trim (trim s) = trim s.
Proof.
  unfold trim. set (a := trim_start s). set (b := trim_start (rev a)).
  assert (Hb : trim_start b = b).
  { apply trim_start_fixed. intros c r Hcr.
    apply (trim_start_head (rev a) c r). by rewrite <- Hcr. }
  assert (Hrev : trim_start (rev b) = rev b).
  { apply trim_start_fixed. intros c r Hcr.
    destruct (trim_start_split (rev a)) as (spaces & Hsplit & _).
    fold b in Hsplit. apply (f_equal (@rev char16)) in Hsplit.
    rewrite rev_involutive, rev_app_distr, Hcr in Hsplit.
    apply (trim_start_head s c (r ++ rev spaces)). exact Hsplit. }
  by rewrite Hrev, rev_involutive, Hb.
Qed.

Lemma command_steps st msg :
  step st (Bot.Start msg) = st
  ∧ step st (Bot.Help msg) = st
  ∧ step st (Bot.Stats msg) = st.
Proof.
  split_and!; [done..|].
  unfold Bot.step, run, Bot.handle, Bot.onStats. run_M.
  destruct (authorizedUsers st !! chat_id msg) as [s|]; [|done].
  by destruct (authorized s).
Qed.

(** X6.  Commands never change the store, and the message handler does
    nothing at all for a message without text, of white space only, or whose
    trimmed text starts with [/]: such a message neither tries the access
    code nor counts as a lookup. *)
Theorem commands_and_blank_messages_change_nothing st msg w :
  step st (Bot.Start msg) = st
  ∧ step st (Bot.Help msg) = st
  ∧ step st (Bot.Stats msg) = st
  ∧ (forallb is_space (default [] (text msg))
     || starts_with (trim (default [] (text msg))) 47%N = true →
     run (onMessage msg w) st = (st, [])).
Proof.
  destruct (command_steps st msg) as (Hstart & Hhelp & Hstats).
  split_and!; [done..|].
  intros [Hblank|Hcmd]%orb_prop; apply onMessage_ignored.
  - by rewrite (trim_spaces _ Hblank).
  - by rewrite Hcmd, orb_true_r.
Qed.

Lemma step_keeps_empty st ev :
  Observe.enterable ACCESS_CODE = false →
  authorizedUsers st = ∅ → authorizedUsers (step st ev) = ∅.
Proof.
  intros Hcode Hempty.
  destruct ev as [msg w|msg|msg|msg];
    [|destruct (command_steps st msg) as (Hstart & Hhelp & Hstats); congruence..].
  unfold Bot.step. cbn [Bot.handle].
  destruct (onMessage_situations st msg)
    as [Hcmd|[[Hcmd Hs]|[(_ & [s Hs] & _)|[[s Hs] _]]]].
  - by rewrite onMessage_ignored.
  - apply orb_false_elim in Hcmd as [Hne Hcmd].
    apply bool_decide_eq_false in Hne.
    rewrite (onMessage_first_contact _ _ _ Hs Hne Hcmd).
    case_bool_decide as Heq; [|exact Hempty]. exfalso.
    unfold Observe.enterable in Hcode. rewrite <- Heq in Hcode.
    rewrite trim_idempotent, Hcmd in Hcode.
    rewrite (bool_decide_eq_false_2 _ Hne) in Hcode.
    rewrite (bool_decide_eq_true_2 _ eq_refl) in Hcode. discriminate Hcode.
  - rewrite Hempty, lookup_empty in Hs. discriminate Hs.
  - rewrite Hempty, lookup_empty in Hs. discriminate Hs.
Qed.

Lemma stays_empty st evs :
  Observe.enterable ACCESS_CODE = false →
  authorizedUsers st = ∅ → authorizedUsers (run_events st evs) = ∅.
Proof.
  intros Hcode. revert st. induction evs as [|ev evs IH]; intros st Hempty; [done|].
  apply (IH (step st ev)). by apply step_keeps_empty.
Qed.

(** X7.  Some chat can become authorized exactly when the access code is
    one that a message can equal: not empty, not starting with [/] and
    without white space at either end.  Under any other access code the
    store stays empty for ever. *)
Theorem access_needs_an_enterable_code :
  (∃ evs c, is_Some (authorizedUsers (run_events initial evs) !! c))
  ↔ Observe.enterable ACCESS_CODE = true.
Proof.
  split.
  - intros (evs & c & Hc).
    destruct (Observe.enterable ACCESS_CODE) eqn:Hcode; [done|].
    rewrite (stays_empty initial evs Hcode eq_refl), lookup_empty in Hc.
    by destruct Hc.
  - unfold Observe.enterable.
    intros [[Hne Hcmd]%andb_prop Htrim]%andb_prop.
    apply negb_true_iff, bool_decide_eq_false in Hne.
    apply negb_true_iff in Hcmd. apply bool_decide_eq_true in Htrim.
    set (msg := {| chat_id := 0; first_name := None; text := Some ACCESS_CODE |}).
    set (w := {| fetching_sent := Fulfilled (); fetched := Rejected (Error []);
                 reply_sent := Fulfilled () |}).
    exists [Bot.Message msg w], 0.
    cbn [Bot.run_events foldl]. unfold Bot.step. cbn [Bot.handle].
    assert (Htext : trim (default [] (text msg)) = ACCESS_CODE) by exact Htrim.
    rewrite (onMessage_first_contact initial msg w); rewrite ?Htext; [|done..].
    rewrite bool_decide_eq_true_2 by done.
    unfold SessionStore.grant. simpl. rewrite lookup_insert_eq. by eexists.
Qed.

(** *** Rendering of entries that are not well formed *)

Lemma member_line_renderable (m : element) (i : nat) :
  (∃ line, member_line m i = inr line)
  ↔ Observe.renderable SHOW_SENSITIVE m = true.
Proof.
  unfold Bot.member_line, Observe.renderable, get, mbind, result_bind, fmap,
    result_fmap, Bot.maskName.
  destruct m as [[| |b|n|s]|[name rel id]]; cbn [memberName releationship_name memberId];
    destruct SHOW_SENSITIVE; cbn [orb negb truthy];
    try (split; [by intros [? [=]] | by intros [=]]);
    try (split; [done | eauto]).
  all: destruct name as [| |[]|n|[|c s]]; cbn [orb negb truthy];
    try destruct (n =? 0); cbn [negb orb];
    try (split; [by intros [? [=]] | by intros [=]]);
    try (split; [done | eauto]).
Qed.

Lemma member_line_error (m : element) (i : nat) e :
  member_line m i = inl e → ∃ site, e = TypeError site.
Proof.
  unfold Bot.member_line, get, mbind, result_bind, fmap, result_fmap,
    Bot.maskName.
  destruct m as [[| |b|n|s]|[name rel id]];
    cbn [memberName releationship_name memberId];
    destruct SHOW_SENSITIVE; cbn [negb truthy];
    try (by intros [=]); try (intros [= <-]; eauto).
  destruct name as [| |[]|n|[|c s]]; cbn [negb truthy];
    try destruct (n =? 0); cbn [negb];
    try (by intros [=]); try (intros [= <-]; eauto).
Qed.

Lemma map_lines_renderable (l : list element) (i : nat) :
  (∃ lines, map_lines l i = inr lines)
  ↔ forallb (Observe.renderable SHOW_SENSITIVE) l = true.
Proof.
  revert i. induction l as [|m l IH]; intros i; [by split; eauto|].
  cbn [Bot.map_lines forallb]. unfold mbind, result_bind.
  rewrite andb_true_iff, <- (member_line_renderable m i), <- (IH (S i)).
  destruct (member_line m i) as [e|line].
  - split; [by intros [? [=]] | by intros [[? [=]] _]].
  - destruct (map_lines l (S i)) as [e|lines].
    + split; [by intros [? [=]] | by intros [_ [? [=]]]].
    + split; eauto.
Qed.

Lemma map_lines_error (l : list element) (i : nat) e :
  map_lines l i = inl e → ∃ site, e = TypeError site.
Proof.
  revert i. induction l as [|m l IH]; intros i; [done|].
  cbn [Bot.map_lines]. unfold mbind, result_bind.
  destruct (member_line m i) as [e0|line] eqn:Hline.
  - intros [= <-]. by apply (member_line_error m i).
  - destruct (map_lines l (S i)) as [e1|lines] eqn:Hlines; [|done].
    intros [= <-]. by apply (IH (S i)).
Qed.

(** X8.  For a body whose fields hold primitive values ([undefined], [null],
    booleans, integers and strings): rendering succeeds exactly when the
    member list is an array none of whose entries is [null] or [undefined]
    and, while names are masked, none of whose entries has a name that is a
    non-zero number or [true].  When it fails, the exception is a
    [TypeError] of the engine. *)
Theorem render_succeeds_iff (r : record) :
  ((∃ reply, render r = inr reply)
   ↔ ∃ l, memberDetailsList r = LArray l
          ∧ forallb (Observe.renderable SHOW_SENSITIVE) l = true)
  ∧ ∀ e, render r = inl e → ∃ site, e = TypeError site.
Proof.
  unfold Bot.render, Bot.members_of, mbind, result_bind, fmap, result_fmap.
  destruct (memberDetailsList r) as [v|l|].
  - split; [|intros e [= <-]; eauto].
    split; [by intros [? [=]] | by intros (l & [=] & _)].
  - split.
    + pose proof (map_lines_renderable l 0) as Hiff.
      destruct (map_lines l 0) as [e|lines].
      * split; [by intros [? [=]]|]. intros (l0 & [= <-] & Hall).
        apply Hiff in Hall as [? [=]].
      * split; [|eauto]. intros _. exists l. split; [done|].
        apply Hiff. eauto.
    + intros e. destruct (map_lines l 0) as [e0|lines] eqn:Hlines; [|done].
      intros [= <-]. by apply (map_lines_error l 0).
  - split; [|intros e [= <-]; eauto].
    split; [by intros [? [=]] | by intros (l & [=] & _)].
Qed.

(** X9.  How missing values are displayed, for an entry that is an object
    whose name, relationship label and identifier are each missing, [null],
    a boolean or a string.  With the show-sensitive flag enabled the entry
    renders with its name and its identifier converted to text as they are,
    so that a missing name reads [undefined] and a [null] one [null]; with
    the flag disabled a missing or otherwise falsy name and identifier both
    read [N/A]. *)
Theorem missing_values_displayed (o : member) (i : nat) :
  Observe.not_number (memberName o) = true →
  Observe.not_number (releationship_name o) = true →
  Observe.not_number (memberId o) = true →
  Bot.member_line true toUpperCase (EObject o) i
  = inr (Layout.member_entry (S i) (ToString (memberName o))
           (Layout.label (releationship_name o)) (ToString (memberId o)))
  ∧ (memberName o = VUndefined →
     Bot.member_line true toUpperCase (EObject o) i
     = inr (Layout.member_entry (S i) (lit "undefined")
              (Layout.label (releationship_name o)) (ToString (memberId o))))
  ∧ (truthy (memberName o) = false → truthy (memberId o) = false →
     Bot.member_line false toUpperCase (EObject o) i
     = inr (Layout.member_entry (S i) (lit "N/A")
              (Layout.label (releationship_name o)) (lit "N/A"))).
Proof.
  intros _ _ _.
  unfold Bot.member_line, Layout.member_entry, Layout.label, get, mbind,
    result_bind, fmap, result_fmap, Bot.maskName, Bot.maskString.
  rewrite Nat2Z.inj_succ, <- Z.add_1_r. split_and!; [done| |].
  - by intros ->.
  - by intros -> ->.
Qed.

(** *** Exceptions *)

Lemma onMessage_returns st msg w :
  ∃ st' t, onMessage msg w st = (inr (), st', t).
Proof.
  unfold Bot.onMessage.
  destruct (bool_decide _ || starts_with _ _); [by eexists _, _|]. run_M.
  destruct (authorizedUsers st !! chat_id msg) as [s|] eqn:Hs.
  - destruct (is_family_id _); cbn [negb]; [|by eexists _, _].
    unfold try_catch, Bot.lookup.
    destruct w as [sent1 got sent2]; cbn [fetching_sent fetched reply_sent].
    destruct sent1 as [[]|e1]; [|by run_M; eexists _, _].
    destruct got as [[code parsed]|e2]; [|by run_M; eexists _, _].
    run_M. destruct (ok _); [|by run_M; eexists _, _]. run_M.
    destruct parsed as [data|e3]; [|by run_M; eexists _, _]. run_M.
    destruct data as [v|r]; [by run_M; eexists _, _|]. run_M.
    destruct (truthy_list _); [|by run_M; eexists _, _]. run_M.
    rewrite (increment_counters_session _ _ _ Hs).
    destruct (render r) as [e4|reply]; [by run_M; eexists _, _|]. run_M.
    by destruct sent2 as [[]|e5]; run_M; eexists _, _.
  - by case_bool_decide; run_M; eexists _, _.
Qed.

(** X10.  The message handler always returns normally: whatever is thrown
    while the provisional notice is sent, the gateway is called, the reply is
    rendered or sent is caught.  It logs at most one error per message, and
    when it logs one, the log entry and the failure notice for that error are
    the last two effects. *)
Theorem exceptions_are_caught st msg w :
  (onMessage msg w st).1.1 = inr ()
  ∧ (Observe.logged (run (onMessage msg w) st).2 = []
     ∨ ∃ err before,
         (run (onMessage msg w) st).2 = before ++ caught (chat_id msg) err
         ∧ Observe.logged (run (onMessage msg w) st).2 = [err]).
Proof.
  split.
  { by destruct (onMessage_returns st msg w) as (st' & t & ->). }
  destruct (onMessage_situations st msg)
    as [Hcmd|[[Hcmd Hs]|[(Hcmd & [s Hs] & Hid)|[[s Hs] Hid]]]].
  - rewrite (onMessage_ignored _ _ _ Hcmd). by left.
  - apply orb_false_elim in Hcmd as [Hne Hcmd].
    apply bool_decide_eq_false in Hne.
    rewrite (onMessage_first_contact _ _ _ Hs Hne Hcmd).
    left. by case_bool_decide.
  - rewrite (onMessage_invalid _ _ _ _ Hs Hcmd Hid). by left.
  - lookup_cases Hs Hid w
      ltac:(first [ by left
                  | by right; eexists _, [_]; split
                  | by right; eexists _, [_; _]; split
                  | by right; eexists _, [_; _; _]; split ]).
Qed.

(** *** Masking *)

Lemma decimal_nonempty (n : Z) : decimal n ≠ [].
Proof.
  unfold decimal, Z.to_int. destruct n as [|p|p]; [done| |done].
  pose proof (DecimalPos.Unsigned.to_uint_nonnil p) as Hp.
  by destruct (Pos.to_uint p).
Qed.

Lemma ToString_truthy (v : value) : truthy v = true → ToString v ≠ [].
Proof.
  destruct v as [| |[]|n|s]; try done.
  - intros _. apply decimal_nonempty.
  - simpl. intros H%negb_true_iff. by apply bool_decide_eq_false in H.
Qed.

Lemma maskString_truthy_starts_redacted (v : value) (k : Z) :
  0 < k → truthy v = true →
  ∃ rest, Bot.maskString v k = Layout.redaction :: rest.
Proof.
  intros Hk Hv. unfold Bot.maskString. rewrite Hv. cbn [negb].
  pose proof (ToString_truthy v Hv) as Hs.
  destruct (ToString v) as [|c s]; [done|]. clear Hs. cbv zeta.
  rewrite !str_repeat_star.
  destruct (Z.leb_spec (Z.of_nat (length (c :: s))) k) as [Hle|Hgt].
  - rewrite Nat2Z.id. simpl. eauto.
  - destruct (Z.to_nat (Z.of_nat (length (c :: s)) - k)) as [|n] eqn:Hn;
      [simpl in *; lia|].
    simpl. eauto.
Qed.

(** X11.  For a positive [keepLast] and a primitive value ([undefined],
    [null], a boolean, an integer or a string), [maskString] returns the
    placeholder [N/A] exactly when the value is falsy ([undefined], [null],
    [false], [0] or the empty string); for every other primitive value, an
    integer included, the output starts with a redaction character. *)
Theorem maskString_placeholder_iff_falsy (v : value) (k : Z) :
  0 < k →
  (Bot.maskString v k = lit "N/A" ↔ truthy v = false)
  ∧ (truthy v = true → ∃ rest, Bot.maskString v k = Layout.redaction :: rest).
Proof.
  intros Hk. split; [|by apply maskString_truthy_starts_redacted].
  destruct (truthy v) eqn:Hv.
  - destruct (maskString_truthy_starts_redacted v k Hk Hv) as [rest ->].
    by split.
  - unfold Bot.maskString. by rewrite Hv.
Qed.

(** X12.  [maskString] reveals the length and the last [keepLast] characters
    of a string and nothing else: two strings of the same length that end in
    the same [keepLast] characters are masked alike. *)
Theorem maskString_reveals_tail_only (v v' : jsstring) (k : nat) :
  (0 < k)%nat → length v = length v' →
  drop (length v - k) v = drop (length v' - k) v' →
  Bot.maskString (VStr v) (Z.of_nat k) = Bot.maskString (VStr v') (Z.of_nat k).
Proof.
  intros Hk Hlen Htail.
  rewrite !maskString_refines_maskTail by done.
  destruct v as [|c r], v' as [|c' r']; try done.
  unfold Layout.maskTail. rewrite <- Hlen.
  destruct (length (c :: r) <=? k)%nat; [done|].
  by rewrite Htail, Hlen.
Qed.

(** *** The two versions of the message handler *)

Local Abbreviation onMessage_v1 :=
  (BotJs.onMessage ACCESS_CODE API_BASE SHOW_SENSITIVE toUpperCase
     encodeURIComponent typeErrorMessage).

Lemma agree_grant users st c :
  BotJs.agree users st →
  BotJs.agree (<[c := true]> users) (SessionStore.grant c st).
Proof.
  intros Hagree c'. unfold SessionStore.grant. cbn [authorizedUsers].
  destruct (decide (c = c')) as [<-|Hne].
  - rewrite !lookup_insert_eq. by rewrite bool_decide_eq_true_2.
  - rewrite !lookup_insert_ne by done. apply Hagree.
Qed.

Lemma agree_recordLookup users st c :
  BotJs.agree users st → BotJs.agree users (SessionStore.recordLookup c st).
Proof.
  intros Hagree c'. unfold SessionStore.recordLookup.
  destruct (authorizedUsers st !! c) as [s|] eqn:Hs; [|apply Hagree].
  cbn [authorizedUsers]. destruct (decide (c = c')) as [<-|Hne].
  - rewrite lookup_insert_eq, Hagree, Hs. by rewrite !bool_decide_eq_true_2.
  - rewrite lookup_insert_ne by done. apply Hagree.
Qed.

Lemma versions_agree_on_a_message users st msg w :
  BotJs.agree users st →
  BotJs.agree (onMessage_v1 msg w users).1 (run (onMessage msg w) st).1
  ∧ (onMessage_v1 msg w users).2
    = map BotJs.relabel (run (onMessage msg w) st).2.
Proof.
  intros Hagree. pose proof (Hagree (chat_id msg)) as Hchat.
  unfold BotJs.onMessage.
  destruct (onMessage_situations st msg)
    as [Hcmd|[[Hcmd Hs]|[(Hcmd & [s Hs] & Hid)|[[s Hs] Hid]]]].
  - by rewrite (onMessage_ignored _ _ _ Hcmd), Hcmd.
  - rewrite Hcmd. rewrite Hs, bool_decide_eq_false_2 in Hchat by apply is_Some_None.
    rewrite Hchat. cbn [negb].
    apply orb_false_elim in Hcmd as [Hne Hcmd].
    apply bool_decide_eq_false in Hne.
    rewrite (onMessage_first_contact _ _ _ Hs Hne Hcmd).
    case_bool_decide; [|done]. split; [|done]. by apply agree_grant.
  - rewrite Hcmd. rewrite Hs, bool_decide_eq_true_2 in Hchat by done.
    rewrite Hchat, Hid. cbn [negb].
    by rewrite (onMessage_invalid _ _ _ _ Hs Hcmd Hid).
  - rewrite (family_id_is_text _ Hid).
    rewrite Hs, bool_decide_eq_true_2 in Hchat by done.
    rewrite Hchat, Hid. cbn [negb fst snd].
    unfold BotJs.try_catch, BotJs.lookup, BotJs.on_error, BotJs.settle,
      BotJs.tell, BotJs.raise.
    lookup_cases Hs Hid w
      ltac:(unfold BotJs.T_bind, BotJs.T_ret; cbn;
            split; [first [exact Hagree | by apply agree_recordLookup]
                   | reflexivity]).
Qed.

(** X13.  The earlier handler ([src/bot.js]) and the one with query tracking
    authorize the same chats and produce the same effects, message by
    message and along any sequence of messages: the same notices, gateway
    calls and replies in the same order, the log label apart. *)
Theorem versions_agree users st :
  BotJs.agree users st →
  (∀ msg w,
     (onMessage_v1 msg w users).2
     = map BotJs.relabel (run (onMessage msg w) st).2)
  ∧ ∀ msgs,
      BotJs.agree
        (BotJs.run_messages ACCESS_CODE API_BASE SHOW_SENSITIVE toUpperCase
           encodeURIComponent typeErrorMessage users msgs)
        (run_events st (map (λ mw, Bot.Message mw.1 mw.2) msgs)).
Proof.
  intros Hagree. split.
  { intros msg w. by apply versions_agree_on_a_message. }
  intros msgs. revert users st Hagree.
  induction msgs as [|[msg w] msgs IH]; intros users st Hagree; [done|].
  cbn [BotJs.run_messages Bot.run_events foldl map fst snd].
  apply IH. by apply versions_agree_on_a_message.
Qed.

(** *** Awaited sends and [/stats] *)

(** X14.  Both awaited sends are inside the [try] block.  When the
    provisional notice cannot be sent, the gateway is not called and the
    failure notice follows at once, the store unchanged.  When the reply
    cannot be sent, the failure notice follows the reply that was attempted,
    and the lookup stays counted. *)
Theorem awaited_send_failures st msg w s err :
  authorizedUsers st !! chat_id msg = Some s →
  is_family_id (trim (default [] (text msg))) = true →
  (fetching_sent w = Rejected err →
   run (onMessage msg w) st
   = (st, SendMessage (chat_id msg) Bot.fetching_notice None
          :: caught (chat_id msg) err))
  ∧ (∀ res r reply,
       fetching_sent w = Fulfilled () → fetched w = Fulfilled res →
       ok res = true → json res = Fulfilled (BodyObject r) →
       truthy_list (memberDetailsList r) = true → render r = inr reply →
       reply_sent w = Rejected err →
       run (onMessage msg w) st
       = (SessionStore.recordLookup (chat_id msg) st,
          asked (chat_id msg) (trim (default [] (text msg)))
          ++ SendMessage (chat_id msg) reply (Some "Markdown"%string)
             :: caught (chat_id msg) err)).
Proof.
  intros Hs Hid. split.
  - intros Hsent. rewrite (onMessage_session _ _ _ _ Hs Hid).
    unfold run, try_catch, Bot.lookup. rewrite Hsent. by run_M.
  - intros res r reply Hsent Hgot Hok Hjson Hlist Hrender Hreply.
    rewrite (onMessage_parsed _ _ _ _ _ _ Hs Hid Hsent Hgot Hok Hjson).
    cbv zeta. by rewrite Hlist, Hrender, Hreply.
Qed.

(** X15.  On every store the bot can reach, [/stats] answers with the
    figures exactly for the chats that have a session, and with the
    not-authorized notice for all others; the test of the session's
    [authorized] flag never fails. *)
Theorem stats_for_chats_with_a_session evs msg :
  let st := run_events initial evs in
  run (Bot.onStats msg) st
  = (st, [match authorizedUsers st !! chat_id msg with
          | Some s =>
            SendMessage (chat_id msg)
              (Bot.statsMsg (Bot.totalUsers st) (queries s) (totalLookups st))
              (Some "Markdown"%string)
          | None => SendMessage (chat_id msg) Bot.not_authorized_notice None
          end]).
Proof.
  intros st. unfold run, Bot.onStats. run_M.
  destruct (authorizedUsers st !! chat_id msg) as [s|] eqn:Hs; [|done].
  assert (Hauth : authorized s = true).
  { apply (run_events_all_authorized initial evs) in Hs; [done|].
    intros c s0 Hc. cbn in Hc. rewrite lookup_empty in Hc. discriminate Hc. }
  by rewrite Hauth.
Qed.

End Router.


(** ** The theorems at sample inputs *)

(** [maskString] on a twelve-digit identifier, keeping four. *)
Lemma maskString_keeps_tail_sample :
  lit "123456789012" ≠ [] ∧ 0 < 4
  ∧ length (Bot.maskString (VStr (lit "123456789012")) 4) = 12%nat
  ∧ Bot.maskString (VStr (lit "123456789012")) 4 = lit "********9012".
Proof.
  split; [discriminate|]. split; [lia|].
  destruct (maskString_keeps_tail (lit "123456789012") 4) as (Hlen & Hlong & _);
    [discriminate | lia |].
  split; [exact Hlen | reflexivity].
Defined.

(** Two names with the same initial and length are masked alike. *)
Lemma maskName_reveals_first_only_sample :
  Bot.maskName Sample.upper_basic_latin (VStr (lit "ravi")) = inr (lit "R.***")
  ∧ Bot.maskName Sample.upper_basic_latin (VStr (lit "rohn"))
    = Bot.maskName Sample.upper_basic_latin (VStr (lit "ravi")).
Proof.
  destruct (maskName_reveals_first_only Sample.upper_basic_latin 114%N (lit "avi"))
    as [Hshape Hsame].
  split; [exact Hshape | exact (Hsame (lit "ohn") eq_refl)].
Defined.

(** [maskString] with nothing to keep: [slice(-0)] is the whole string. *)
Example maskString_keep_none :
  Bot.maskString (VStr (lit "abc")) 0 = lit "***abc".
Proof. reflexivity. Qed.

(** A lookup whose gateway succeeds, and one that gets a 500. *)
Lemma counters_advance_with_gateway_sample :
  let msg := Sample.says 7 "116440054586" in
  let good := Sample.answers 200 (BodyObject (Sample.family (LArray [EObject Sample.ravi]))) in
  let bad := Sample.answers 500 (BodyPrim VNull) in
  totalLookups (run (Sample.handler "1234" false msg good) Sample.one_user).1 = 1%nat
  ∧ (run (Sample.handler "1234" false msg bad) Sample.one_user).1 = Sample.one_user.
Proof.
  intros msg good bad.
  destruct (counters_advance_with_gateway (lit "1234") Sample.api false
              Sample.upper_basic_latin Sample.encode_digits Sample.wording
              Sample.one_user msg good {| authorized := true; queries := 0 |}
              eq_refl eq_refl) as [Hgood _].
  destruct (counters_advance_with_gateway (lit "1234") Sample.api false
              Sample.upper_basic_latin Sample.encode_digits Sample.wording
              Sample.one_user msg bad {| authorized := true; queries := 0 |}
              eq_refl eq_refl) as [_ Hbad].
  split; [exact (proj2 (Hgood eq_refl)) | exact (Hbad eq_refl)].
Defined.

(** A transport error, a 500 and a body that is not JSON. *)
Lemma failure_notice_carries_message_sample :
  let msg := Sample.says 7 "116440054586" in
  let refused :=
    {| fetching_sent := Fulfilled ();
       fetched := Rejected (Error (lit "connect ECONNREFUSED 10.0.0.5:443"));
       reply_sent := Fulfilled () |} in
  (run (Sample.handler "1234" false msg refused) Sample.one_user).2
  = [SendMessage 7 Bot.fetching_notice None;
     Fetch (Sample.api ++ lit "116440054586");
     ConsoleError (lit "❌ Error:") (Error (lit "connect ECONNREFUSED 10.0.0.5:443"));
     SendMessage 7 (lit "❌ Failed to fetch data: connect ECONNREFUSED 10.0.0.5:443")
       None].
Proof.
  intros msg refused.
  destruct (failure_notice_carries_message (lit "1234") Sample.api false
              Sample.upper_basic_latin Sample.encode_digits Sample.wording
              Sample.one_user msg refused {| authorized := true; queries := 0 |}
              eq_refl eq_refl eq_refl) as [Hrefused _].
  exact (f_equal snd (Hrefused _ eq_refl)).
Defined.

(** Two members, masked. *)
Lemma two_members_counted_and_rendered_sample :
  let msg := Sample.says 7 "116440054586" in
  let r := Sample.family (LArray [EObject Sample.ravi; EObject Sample.sita]) in
  let w := Sample.answers 200 (BodyObject r) in
  ∃ st' reply after,
    run (Sample.handler "1234" false msg w) Sample.one_user
    = (st', [SendMessage 7 Bot.fetching_notice None;
             Fetch (Sample.api ++ lit "116440054586");
             SendMessage 7 reply (Some "Markdown"%string)] ++ after)
    ∧ authorizedUsers st' !! 7 = Some {| authorized := true; queries := 1 |}
    ∧ totalLookups st' = 1%nat
    ∧ reply = Layout.reply (lit "PHH") (lit "Pune") (lit "N/A") (lit "******n Road")
                [Layout.member_entry 1 (lit "R.*********") (lit "SELF")
                   (lit "********9012");
                 Layout.member_entry 2 (lit "S.********") (lit "N/A")
                   (lit "********4321")]
                Bot.masked_notice.
Proof.
  intros msg r w.
  destruct (two_members_counted_and_rendered (lit "1234") Sample.api false
              Sample.upper_basic_latin Sample.encode_digits Sample.wording
              Sample.one_user msg w {| authorized := true; queries := 0 |}
              {| status := 200; json := Fulfilled (BodyObject r) |} r
              (EObject Sample.ravi) (EObject Sample.sita)
              (Layout.member_entry 1 (lit "R.*********") (lit "SELF")
                 (lit "********9012"))
              (Layout.member_entry 2 (lit "S.********") (lit "N/A")
                 (lit "********4321"))
              eq_refl eq_refl eq_refl eq_refl eq_refl eq_refl eq_refl eq_refl
              eq_refl)
    as (st' & reply & after & Hrun & Hq & _ & Ht & Hreply & _).
  exists st', reply, after. split_and!; [exact Hrun | exact Hq | exact Ht |].
  rewrite Hreply. reflexivity.
Defined.

(** An empty member list, and a member list that is [null]. *)
Lemma empty_member_list_is_success_sample :
  let msg := Sample.says 7 "116440054586" in
  let empty := Sample.answers 200 (BodyObject (Sample.family (LArray []))) in
  totalLookups (run (Sample.handler "1234" true msg empty) Sample.one_user).1 = 1%nat
  ∧ SendMessage 7 Bot.not_found_notice None
      ∉ (run (Sample.handler "1234" true msg empty) Sample.one_user).2.
Proof.
  intros msg empty.
  destruct (empty_member_list_is_success (lit "1234") Sample.api true
              Sample.upper_basic_latin Sample.encode_digits Sample.wording
              Sample.one_user msg empty {| authorized := true; queries := 0 |}
              {| status := 200;
                 json := Fulfilled (BodyObject (Sample.family (LArray []))) |}
              eq_refl eq_refl eq_refl eq_refl eq_refl) as [Hempty Hnotice].
  split.
  - destruct (Hempty _ eq_refl eq_refl) as (st' & after & Hrun & _ & Ht).
    change (totalLookups (run (Bot.onMessage (lit "1234") Sample.api true
              Sample.upper_basic_latin Sample.encode_digits Sample.wording
              msg empty) Sample.one_user).1 = 1%nat).
    rewrite Hrun. exact Ht.
  - intros Hin. apply (Hnotice _ eq_refl) in Hin.
    destruct Hin as [[v Hv]|(r & v & Hr & Hl & _)]; [discriminate Hv|].
    injection Hr as <-. discriminate Hl.
Defined.

(** From process start: a wrong code, the code, a lookup, [/stats]. *)
Lemma authorized_monotone_and_counts_bounded_sample :
  let evs :=
    [Bot.Message (Sample.says 7 "wrong") (Sample.answers 200 (BodyPrim VNull));
     Bot.Message (Sample.says 7 "1234") (Sample.answers 200 (BodyPrim VNull));
     Bot.Message (Sample.says 7 "116440054586")
       (Sample.answers 200 (BodyObject (Sample.family (LArray [EObject Sample.ravi]))));
     Bot.Stats (Sample.says 7 "/stats")] in
  SessionStore.counts_bounded initial
  ∧ SessionStore.counts_bounded (Sample.after "1234" false evs)
  ∧ authorizedUsers (Sample.after "1234" false evs) !! 7
    = Some {| authorized := true; queries := 1 |}.
Proof.
  intros evs.
  assert (Hstart : SessionStore.counts_bounded initial).
  { intros c s Hs. simpl in Hs. rewrite lookup_empty in Hs. discriminate Hs. }
  split; [exact Hstart|].
  split; [|reflexivity].
  exact (proj2 (authorized_monotone_and_counts_bounded (lit "1234") Sample.api
                  false Sample.upper_basic_latin Sample.encode_digits
                  Sample.wording initial evs Hstart)).
Defined.

(** First contact with a wrong code, then with the code. *)
Lemma session_created_on_grant_only_sample :
  let w := Sample.answers 200 (BodyPrim VNull) in
  run (Sample.handler "1234" false (Sample.says 7 "wrong") w) initial
  = (initial, [SendMessage 7 Bot.restricted_notice None])
  ∧ run (Sample.handler "1234" false (Sample.says 7 "1234") w) initial
    = ({| authorizedUsers := {[ 7 := {| authorized := true; queries := 0 |} ]};
          totalLookups := 0 |},
       [SendMessage 7 Bot.granted_notice None])
  ∧ Bot.totalUsers (Demo.run_events initial Demo.session)
    = size (Observe.presenters Demo.code Demo.session).
Proof.
  intros w.
  destruct (session_created_on_grant_only (lit "1234") Sample.api false
              Sample.upper_basic_latin Sample.encode_digits Sample.wording
              initial (Sample.says 7 "wrong") w eq_refl)
    as (_ & Hdenied & _).
  destruct (session_created_on_grant_only (lit "1234") Sample.api false
              Sample.upper_basic_latin Sample.encode_digits Sample.wording
              initial (Sample.says 7 "1234") w eq_refl)
    as (_ & _ & Hgranted & Hreach & _).
  split_and!.
  - apply Hdenied; [discriminate | reflexivity | discriminate].
  - apply Hgranted; [discriminate | reflexivity | reflexivity].
  - exact (proj2 (proj2 (Hreach Demo.session))).
Defined.

(** The reply for a family of two, shown and masked, as text. *)
Lemma show_sensitive_switch_sample :
  Bot.render true Sample.upper_basic_latin (Layout.parsed Demo.family_record)
  = inr (lit "🪪 **Aadhaar Family Info**" ++ nl
         ++ lit "────────────────────" ++ nl
         ++ lit "Scheme: PHH" ++ nl
         ++ lit "District: Pune" ++ nl
         ++ lit "State: N/A" ++ nl
         ++ lit "Address: 12 Main Road" ++ nl
         ++ nl
         ++ lit "👨‍👩‍👧‍👦 **Members:**" ++ nl
         ++ lit "1. ravi kumar — SELF" ++ nl
         ++ lit "   🆔 123456789012" ++ nl
         ++ nl
         ++ lit "2. sita devi — N/A" ++ nl
         ++ lit "   🆔 210987654321" ++ nl
         ++ nl
         ++ lit "⚠️ Sensitive output is ENABLED. Handle with caution.")
  ∧ Bot.render false Sample.upper_basic_latin (Layout.parsed Demo.family_record)
    = inr (lit "🪪 **Aadhaar Family Info**" ++ nl
           ++ lit "────────────────────" ++ nl
           ++ lit "Scheme: PHH" ++ nl
           ++ lit "District: Pune" ++ nl
           ++ lit "State: N/A" ++ nl
           ++ lit "Address: ******n Road" ++ nl
           ++ nl
           ++ lit "👨‍👩‍👧‍👦 **Members:**" ++ nl
           ++ lit "1. R.********* — SELF" ++ nl
           ++ lit "   🆔 ********9012" ++ nl
           ++ nl
           ++ lit "2. S.******** — N/A" ++ nl
           ++ lit "   🆔 ********4321" ++ nl
           ++ nl
           ++ lit "🔒 Sensitive fields are masked. Set SHOW_SENSITIVE=true in .env to see full data.").
Proof.
  destruct (show_sensitive_switch Sample.upper_basic_latin Demo.family_record)
    as (Hshown & Hmasked & _).
  split; [rewrite Hshown | rewrite Hmasked]; reflexivity.
Defined.

(** The access code [1234]: wrong code, the code, the code again. *)
Lemma access_code_resent_sample :
  let w := Sample.answers 200 (BodyPrim VNull) in
  let st := Sample.after "1234" false
              [Bot.Message (Sample.says 7 "wrong") w;
               Bot.Message (Sample.says 7 "1234") w] in
  authorizedUsers st !! 7 = Some {| authorized := true; queries := 0 |}
  ∧ run (Sample.handler "1234" false (Sample.says 7 "1234") w) st
    = (st, [SendMessage 7 Bot.invalid_notice None]).
Proof.
  intros w st. split; [reflexivity|].
  destruct (access_code_resent (lit "1234") Sample.api false
              Sample.upper_basic_latin Sample.encode_digits Sample.wording
              st (Sample.says 7 "1234") w {| authorized := true; queries := 0 |}
              eq_refl) as [_ Hresent].
  exact (Hresent eq_refl eq_refl).
Defined.

(** ** Where the specification and the code part *)

(** C1: a body whose member list holds [null] passes the presence check, so
    both counters advance; rendering then throws and the [catch] block runs. *)
Lemma counters_advance_before_rendering_fails :
  run (Sample.handler "1234" false (Sample.says 7 "116440054586")
         (Sample.answers 200 (BodyObject (Sample.family (LArray [EPrim VNull])))))
    Sample.one_user
  = ({| authorizedUsers := {[ 7 := {| authorized := true; queries := 1 |} ]};
        totalLookups := 1 |},
     [SendMessage 7 Bot.fetching_notice None;
      Fetch (Sample.api ++ lit "116440054586");
      ConsoleError (lit "❌ Error:") (TypeError (ReadOfNull "memberName"));
      SendMessage 7
        (lit "❌ Failed to fetch data: Cannot read properties of null (reading 'memberName')")
        None]).
Proof. reflexivity. Qed.

(** C2: the notice for a 500 carries the message of the error, and differs
    from the notice for a 404. *)
Lemma failure_notice_shows_status :
  (run (Sample.handler "1234" false (Sample.says 7 "116440054586")
          (Sample.answers 500 (BodyPrim VNull))) Sample.one_user).2
  = [SendMessage 7 Bot.fetching_notice None;
     Fetch (Sample.api ++ lit "116440054586");
     ConsoleError (lit "❌ Error:") (Error (lit "HTTP 500"));
     SendMessage 7 (lit "❌ Failed to fetch data: HTTP 500") None]
  ∧ (run (Sample.handler "1234" false (Sample.says 7 "116440054586")
            (Sample.answers 404 (BodyPrim VNull))) Sample.one_user).2
    = [SendMessage 7 Bot.fetching_notice None;
       Fetch (Sample.api ++ lit "116440054586");
       ConsoleError (lit "❌ Error:") (Error (lit "HTTP 404"));
       SendMessage 7 (lit "❌ Failed to fetch data: HTTP 404") None].
Proof. split; reflexivity. Qed.

(** C3: a wrong code on first contact creates no session. *)
Lemma wrong_code_creates_no_session :
  let st' := (run (Sample.handler "1234" false (Sample.says 7 "wrong")
                     (Sample.answers 200 (BodyPrim VNull))) initial).1 in
  authorizedUsers st' !! 7 = None ∧ Bot.totalUsers st' = 0%nat.
Proof. split; reflexivity. Qed.

(** C5: the empty string is masked to the placeholder, three characters
    long. *)
Lemma maskString_empty_is_placeholder :
  Bot.maskString (VStr []) 4 = lit "N/A"
  ∧ length (Bot.maskString (VStr []) 4) ≠ length ([] : jsstring).
Proof. split; [reflexivity | discriminate]. Qed.

(** C6: under the access code [123456], sending the code again on an
    authorized chat is a lookup and advances the counters. *)
Lemma access_code_resent_is_a_lookup :
  (run (Sample.handler "123456" false (Sample.says 7 "123456")
          (Sample.answers 200 (BodyObject (Sample.family (LArray [EObject Sample.ravi])))))
     Sample.one_user).1
  = {| authorizedUsers := {[ 7 := {| authorized := true; queries := 1 |} ]};
       totalLookups := 1 |}.
Proof. reflexivity. Qed.

(** C10: a member-list field that is present and holds [null], or the empty
    string, gives the not-found notice. *)
Lemma falsy_member_list_is_not_found :
  run (Sample.handler "1234" false (Sample.says 7 "116440054586")
         (Sample.answers 200 (BodyObject (Sample.family (LPrim VNull)))))
    Sample.one_user
  = (Sample.one_user,
     [SendMessage 7 Bot.fetching_notice None;
      Fetch (Sample.api ++ lit "116440054586");
      SendMessage 7 Bot.not_found_notice None])
  ∧ run (Sample.handler "1234" false (Sample.says 7 "116440054586")
           (Sample.answers 200 (BodyObject (Sample.family (LPrim (VStr []))))))
      Sample.one_user
    = (Sample.one_user,
       [SendMessage 7 Bot.fetching_notice None;
        Fetch (Sample.api ++ lit "116440054586");
        SendMessage 7 Bot.not_found_notice None]).
Proof. split; reflexivity. Qed.

(** ** The further properties at sample inputs *)

Lemma replies_go_to_the_sender_sample :
  SendMessage 7 Bot.restricted_notice None
    ∈ (run (Demo.handle (Bot.Message (Sample.says 7 "hello") Demo.broken)) initial).2
  ∧ 7 = Observe.sender (Bot.Message (Sample.says 7 "hello") Demo.broken).
Proof.
  assert (Hin : SendMessage 7 Bot.restricted_notice None
    ∈ (run (Demo.handle (Bot.Message (Sample.says 7 "hello") Demo.broken)) initial).2).
  { apply list_elem_of_here. }
  split; [exact Hin|].
  exact (replies_go_to_the_sender Demo.code Sample.api false
           Sample.upper_basic_latin Sample.encode_digits Sample.wording
           initial _ 7 _ None Hin).
Defined.

Lemma other_chats_untouched_sample :
  8 ≠ 7
  ∧ authorizedUsers (Demo.step Sample.one_user (Bot.Message Demo.asks Demo.found)) !! 8
    = authorizedUsers Sample.one_user !! 8.
Proof.
  split; [lia|].
  apply (other_chats_untouched Demo.code Sample.api false
           Sample.upper_basic_latin Sample.encode_digits Sample.wording).
  simpl. lia.
Defined.

Lemma counters_never_decrease_sample :
  (totalLookups initial ≤ totalLookups (Demo.run_events initial Demo.session))%nat
  ∧ ∃ s', authorizedUsers
            (Demo.run_events Sample.one_user [Bot.Message Demo.asks Demo.found]) !! 7
          = Some s'
          ∧ authorized s' = true ∧ (0 ≤ queries s')%nat.
Proof.
  split.
  - exact (proj1 (counters_never_decrease Demo.code Sample.api false
                    Sample.upper_basic_latin Sample.encode_digits Sample.wording
                    initial Demo.session)).
  - exact (proj2 (proj2 (counters_never_decrease Demo.code Sample.api false
                    Sample.upper_basic_latin Sample.encode_digits Sample.wording
                    Sample.one_user [Bot.Message Demo.asks Demo.found]))
             7 {| authorized := true; queries := 0 |} eq_refl).
Defined.

Lemma lookups_are_the_sum_of_queries_sample :
  Observe.query_sum initial = totalLookups initial
  ∧ Observe.query_sum (Demo.run_events initial Demo.session)
    = totalLookups (Demo.run_events initial Demo.session).
Proof.
  split; [reflexivity|].
  apply (lookups_are_the_sum_of_queries Demo.code Sample.api false
           Sample.upper_basic_latin Sample.encode_digits Sample.wording).
  reflexivity.
Defined.

Lemma commands_and_blank_messages_change_nothing_sample :
  run (Sample.handler "1234" false (Sample.says 7 "  /1234 ") Demo.found) initial
  = (initial, []).
Proof.
  apply (commands_and_blank_messages_change_nothing (lit "1234") Sample.api false
           Sample.upper_basic_latin Sample.encode_digits Sample.wording).
  reflexivity.
Defined.

Lemma render_succeeds_iff_sample :
  Bot.render false Sample.upper_basic_latin (Sample.family (LArray [EPrim VNull]))
  = inl (TypeError (ReadOfNull "memberName"))
  ∧ ∃ site, TypeError (ReadOfNull "memberName") = TypeError site.
Proof.
  split; [reflexivity|].
  exact (proj2 (render_succeeds_iff false Sample.upper_basic_latin
                  (Sample.family (LArray [EPrim VNull]))) _ eq_refl).
Defined.

Lemma missing_values_displayed_sample :
  let o := {| memberName := VUndefined; releationship_name := VStr (lit "SON");
              memberId := VNull |} in
  Bot.member_line true Sample.upper_basic_latin (EObject o) 0
  = inr (Layout.member_entry 1 (lit "undefined") (lit "SON") (lit "null"))
  ∧ Bot.member_line false Sample.upper_basic_latin (EObject o) 0
    = inr (Layout.member_entry 1 (lit "N/A") (lit "SON") (lit "N/A")).
Proof.
  intros o.
  destruct (missing_values_displayed Sample.upper_basic_latin o 0
              eq_refl eq_refl eq_refl) as (Hshown & _ & Hmasked).
  split; [exact Hshown | exact (Hmasked eq_refl eq_refl)].
Defined.

Lemma maskString_placeholder_iff_falsy_sample :
  0 < 4 ∧ Bot.maskString (VNum 0) 4 = lit "N/A"
  ∧ ∃ rest, Bot.maskString (VNum 123456789012) 4 = Layout.redaction :: rest.
Proof.
  split; [lia|].
  destruct (maskString_placeholder_iff_falsy (VNum 0) 4) as [Hzero _]; [lia|].
  destruct (maskString_placeholder_iff_falsy (VNum 123456789012) 4)
    as [_ Hnumber]; [lia|].
  split; [exact (proj2 Hzero eq_refl) | exact (Hnumber eq_refl)].
Defined.

Lemma maskString_reveals_tail_only_sample :
  Bot.maskString (VStr (lit "123456789012")) 4
  = Bot.maskString (VStr (lit "999999999012")) 4.
Proof.
  apply (maskString_reveals_tail_only (lit "123456789012") (lit "999999999012") 4);
    [lia | reflexivity | reflexivity].
Defined.

Lemma versions_agree_sample :
  BotJs.agree ∅ initial
  ∧ (Demo.onMessage_v1 (Sample.says 7 "1234") Demo.broken ∅).2
    = map BotJs.relabel
        (run (Sample.handler "1234" false (Sample.says 7 "1234") Demo.broken) initial).2.
Proof.
  assert (Hstart : BotJs.agree ∅ initial).
  { intros c. simpl. rewrite !lookup_empty. reflexivity. }
  split; [exact Hstart|].
  exact (proj1 (versions_agree Demo.code Sample.api false
                  Sample.upper_basic_latin Sample.encode_digits Sample.wording
                  ∅ initial Hstart) _ _).
Defined.

Lemma awaited_send_failures_sample :
  let w := {| fetching_sent := Rejected (Error (lit "ETELEGRAM: 429 Too Many Requests"));
              fetched := Rejected (Error []);
              reply_sent := Fulfilled () |} in
  run (Sample.handler "1234" false Demo.asks w) Sample.one_user
  = (Sample.one_user,
     SendMessage 7 Bot.fetching_notice None
     :: Trace.caught Sample.wording 7 (Error (lit "ETELEGRAM: 429 Too Many Requests"))).
Proof.
  intros w.
  exact (proj1 (awaited_send_failures (lit "1234") Sample.api false
                  Sample.upper_basic_latin Sample.encode_digits Sample.wording
                  Sample.one_user Demo.asks w {| authorized := true; queries := 0 |}
                  (Error (lit "ETELEGRAM: 429 Too Many Requests")) eq_refl eq_refl)
           eq_refl).
Defined.
